(** * SoundSlide firmware: gesture decoder and HID report encoder

    A shallow embedding of [fw/src/keys.cpp] (key constants, the
    [KeyReporter] interface, the HID report descriptor, [HidEndpoint] and
    [HidInterface]) and of [fw/src/gesture.cpp] ([GestureDecoder]), with the
    properties of the firmware's specification stated over it.

    Conventions.
    - A C++ [int] is a [Z] kept in the signed 32-bit range; every arithmetic
      result is passed through [wrap32].  Signed overflow is undefined in
      C++; the model takes the two's-complement result of the Cortex-M0+
      target, and the theorems say where they need the absence of overflow.
    - [signed char] and [unsigned char] stores reduce modulo 2^8
      ([to_schar], [to_uchar]).
    - Arrays are lists, written by index with stdpp's [<[i:=v]>].
    - A method that mutates an object takes the object and returns the new
      one, together with what it handed to a collaborator (the bytes given
      to the transport, the calls made on the key reporter). *)

From Stdlib Require Import ZArith QArith Lia.
From stdpp Require Import base list.

Local Open Scope Z_scope.

(* ===================================================================== *)
(** ** Machine integers *)
(* ===================================================================== *)

Module MachInt.

(** Two's-complement reduction of [z] to [w] bits, signed. *)
Definition swrap (w z : Z) : Z := (z + 2 ^ (w - 1)) mod 2 ^ w - 2 ^ (w - 1).

Definition INT_MIN : Z := -2147483648.
Definition INT_MAX : Z := 2147483647.
Definition SCHAR_MIN : Z := -128.
Definition SCHAR_MAX : Z := 127.

Definition wrap32 (z : Z) : Z := swrap 32 z.

(** Conversion of an [int] to [signed char] and to [unsigned char]. *)
Definition to_schar (z : Z) : Z := swrap 8 z.
Definition to_uchar (z : Z) : Z := z mod 256.

Definition is_int (z : Z) : Prop := INT_MIN <= z <= INT_MAX.
Definition is_schar (z : Z) : Prop := SCHAR_MIN <= z <= SCHAR_MAX.
Definition is_uchar (z : Z) : Prop := 0 <= z <= 255.

Definition add32 (a b : Z) : Z := wrap32 (a + b).
Definition sub32 (a b : Z) : Z := wrap32 (a - b).
Definition mul32 (a b : Z) : Z := wrap32 (a * b).
Definition neg32 (a : Z) : Z := wrap32 (- a).
(** C++ division truncates toward zero. *)
Definition div32 (a b : Z) : Z := wrap32 (Z.quot a b).
(** [a << b]; a shift count outside 0..31 is undefined in C++, the model
    gives what the formula gives. *)
Definition shl32 (a b : Z) : Z := wrap32 (Z.shiftl a b).

(** A C++ condition on an integer: nonzero is true. *)
Definition truthy (z : Z) : bool := negb (z =? 0).
(** A C++ [bool] used as an [int]. *)
Definition b2i (b : bool) : Z := if b then 1 else 0.

End MachInt.

Import MachInt.

(* ===================================================================== *)
(** ** Loops over array indices *)
(* ===================================================================== *)

Module Loops.

(** [for (int i = start; i < start + n; i++) s = body i s;] *)
Fixpoint for_up {St : Type} (n : nat) (start : nat) (body : nat -> St -> St) (s : St) : St :=
  match n with
  | O => s
  | S n' => for_up n' (S start) body (body start s)
  end.

(** [for (int i = n - 1; i >= 0; i--) s = body i s;] *)
Fixpoint for_down {St : Type} (n : nat) (body : nat -> St -> St) (s : St) : St :=
  match n with
  | O => s
  | S n' => for_down n' body (body n' s)
  end.

(** [a[i]] for an [int] array; the model reads 0 outside the array, where
    the C++ read is undefined. *)
Definition at_index (a : list Z) (i : nat) : Z := nth i a 0.

End Loops.

Import Loops.

(* ===================================================================== *)
(** ** keys.cpp: key constants and the KeyReporter interface *)
(* ===================================================================== *)

Module Keys.

Definition KEY_VOLUME_UP : Z := 0.
Definition KEY_VOLUME_DOWN : Z := 1.
Definition KEY_BRIGHTNESS_UP : Z := 2.
Definition KEY_BRIGHTNESS_DOWN : Z := 3.
Definition KEY_MIC_MUTE : Z := 4.
Definition KEY_LOCK_WORKSTATION : Z := 5.

(** [class KeyReporter]: the two pure virtual methods, acting on the
    state [R] of whatever implements them. *)
Class KeyReporter (R : Type) : Type := {
  reportKey : Z -> Z -> R -> R;
  reportScroll : Z -> R -> R
}.

(** A call made on a [KeyReporter]. *)
Inductive Call : Type :=
| ReportKey (key count : Z)
| ReportScroll (steps : Z).

(** The reporter that only records the calls it receives, oldest first. *)
#[export] Instance Recorder : KeyReporter (list Call) := {|
  reportKey k c log := log ++ [ReportKey k c];
  reportScroll s log := log ++ [ReportScroll s]
|}.

(** The calls of a record made again on a reporter. *)
Definition replay {R : Type} `{KeyReporter R} (calls : list Call) (r : R) : R :=
  fold_left
    (fun r c =>
       match c with
       | ReportKey key count => reportKey key count r
       | ReportScroll steps => reportScroll steps r
       end)
    calls r.

End Keys.

(* ===================================================================== *)
(** ** keys.cpp: HID report descriptor, HidEndpoint, HidInterface *)
(* ===================================================================== *)

Module Hid.

Import Keys.

Definition HID_GET_DESCRIPTOR : Z := 0x06.
Definition HID_DESCRIPTOR_TYPE_HID : Z := 0x21.
Definition HID_DESCRIPTOR_TYPE_REPORT : Z := 0x22.

Definition hidReportDescriptor : list Z :=
  [ (* Consumer Control *)
    0x05; 0x0C; 0x09; 0x01; 0xA1; 0x01;
    0x09; 0xE9; 0x09; 0xEA; 0x09; 0x6F; 0x09; 0x70; 0x09; 0xF8;
    0x15; 0x00; 0x25; 0x01; 0x75; 0x01; 0x95; 0x05; 0x81; 0x02;
    0x95; 0x03; 0x81; 0x03;
    0xC0;
    (* Mouse scroll *)
    0x05; 0x01; 0x09; 0x02; 0xA1; 0x01;
    0x09; 0x01; 0xA1; 0x00;
    0x09; 0x38; 0x15; 0x81; 0x25; 0x7F; 0x75; 0x08; 0x95; 0x01; 0x81; 0x06;
    0xC0;
    0xC0;
    (* Keyboard *)
    0x05; 0x01; 0x09; 0x06; 0xA1; 0x01;
    0x05; 0x07; 0x19; 0xE0; 0x29; 0xE7; 0x15; 0x00; 0x25; 0x01;
    0x75; 0x01; 0x95; 0x08; 0x81; 0x02;
    0x05; 0x07; 0x19; 0x00; 0x29; 0x65; 0x15; 0x00; 0x25; 0x65;
    0x75; 0x08; 0x95; 0x01; 0x81; 0x00;
    0xC0 ].

(** [sizeof(hidReportDescriptor)] *)
Definition sizeof_hidReportDescriptor : nat := length hidReportDescriptor.

Definition MODIFIER_LEFT_GUI : Z := 0x08.
Definition KEY_CODE_L : Z := 0x0F.

(** [class HidEndpoint]: the three [int] members and the 4-byte transmit
    buffer. *)
Record HidEndpoint : Type := mkHidEndpoint {
  key : Z;
  count : Z;
  scroll : Z;
  txBuffer : list Z
}.

(** [sizeof(txBuffer)] *)
Definition sizeof_txBuffer : nat := 4.

(** Modelled from the spec: [startTx] of the base class [usbd::UsbEndpoint]
    is not in src.  The spec has the report "sent as one fixed-size
    transfer": [startTx n] hands the first [n] bytes of the transmit buffer
    to the transport, which notifies [txComplete] when they are sent. *)
Definition startTx (buffer : list Z) (n : nat) : list Z := take n buffer.

(** [void sendReport()]: the new endpoint and the bytes given to
    [startTx]. *)
Definition sendReport (e : HidEndpoint) : HidEndpoint * list Z :=
  let buf := txBuffer e in
  let buf := <[0%nat := 0]> buf in
  let buf := <[1%nat := 0]> buf in
  let buf := <[2%nat := 0]> buf in
  let buf := <[3%nat := 0]> buf in
  let '(buf, cnt) :=
    if count e >? 0 then
      let keyDown := negb (truthy (Z.land (count e) 1)) in
      let buf :=
        if key e =? KEY_LOCK_WORKSTATION then
          if keyDown then
            let buf := <[2%nat := MODIFIER_LEFT_GUI]> buf in
            <[3%nat := KEY_CODE_L]> buf
          else buf
        else
          if keyDown then <[0%nat := to_uchar (shl32 1 (key e))]> buf
          else buf in
      (buf, sub32 (count e) 1)
    else (buf, count e) in
  let buf := <[1%nat := to_uchar (scroll e)]> buf in
  ({| key := key e; count := cnt; scroll := 0; txBuffer := buf |},
   startTx buf sizeof_txBuffer).

(** [void reportKey(int key, int count)]: the new endpoint and the
    transfer started, if any. *)
Definition reportKey (k c : Z) (e : HidEndpoint) : HidEndpoint * option (list Z) :=
  if truthy c then
    let e := {| key := k; count := mul32 c 2; scroll := scroll e; txBuffer := txBuffer e |} in
    let '(e, sent) := sendReport e in
    (e, Some sent)
  else (e, None).

(** [void reportScroll(int steps)] *)
Definition reportScroll (steps : Z) (e : HidEndpoint) : HidEndpoint * list Z :=
  let e := {| key := 0; count := 0; scroll := steps; txBuffer := txBuffer e |} in
  sendReport e.

(** [void txComplete()]: called by the transport when a transfer is done. *)
Definition txComplete (e : HidEndpoint) : HidEndpoint * option (list Z) :=
  if truthy (count e) then
    let '(e, sent) := sendReport e in
    (e, Some sent)
  else (e, None).

(** The transport's side of the pacing: each started transfer completes
    and is notified once; [completions fuel e] delivers at most [fuel]
    notifications, stops at the first one that starts no transfer, and
    returns the transfers started on the way, oldest first. *)
Fixpoint completions (fuel : nat) (e : HidEndpoint) : HidEndpoint * list (list Z) :=
  match fuel with
  | O => (e, [])
  | S fuel' =>
      match txComplete e with
      | (e', None) => (e', [])
      | (e', Some sent) =>
          let '(e'', more) := completions fuel' e' in
          (e'', sent :: more)
      end
  end.

(** Modelled from the spec: the [SetupData] declaration of the USB library
    is not in src; it is the 8-byte setup packet of a control transfer, of
    which [setup] reads [bRequest], [wValue] and [wIndex]. *)
Record SetupData : Type := mkSetupData {
  bmRequestType : Z;
  bRequest : Z;
  wValue : Z;
  wIndex : Z;
  wLength : Z
}.

(** What [setup] asks of the control endpoint. *)
Inductive ControlTransfer : Type :=
| StartTx (bytes : list Z)
| Stall.

(** [memcpy(dst, src, n)] on arrays of bytes. *)
Definition memcpy (dst src : list Z) (n : nat) : list Z := take n src ++ drop n dst.

(** The condition of [setup] as C++ parses it: [==] binds tighter than
    [|], which binds tighter than [&&]. *)
Definition setup_condition (s : SetupData) : bool :=
  (bRequest s =? HID_GET_DESCRIPTOR)
  && truthy (Z.lor (b2i (wValue s =? shl32 HID_DESCRIPTOR_TYPE_REPORT 8)) 0)
  && (wIndex s =? 0).

(** [void setup(SetupData* setup)]: the control endpoint's transmit buffer
    after the call and the transfer requested. *)
Definition setup (s : SetupData) (ctrlTxBuffer : list Z) : list Z * ControlTransfer :=
  if setup_condition s then
    let buf := memcpy ctrlTxBuffer hidReportDescriptor sizeof_hidReportDescriptor in
    (buf, StartTx (startTx buf sizeof_hidReportDescriptor))
  else
    (ctrlTxBuffer, Stall).

(** *** The report encoder in the specification's words (section 4.5)

    The report of a down phase: for the double-tap action the modifier
    byte gets the host-key bit and the key-code byte the lock key code;
    for a consumer-control key the consumer byte gets the key's bit.  The
    report of an up phase leaves all three zero.  [s] is the scroll byte. *)
Definition spec_down_report (k s : Z) : list Z :=
  if k =? KEY_LOCK_WORKSTATION then [0; s; MODIFIER_LEFT_GUI; KEY_CODE_L]
  else [to_uchar (shl32 1 k); s; 0; 0].

Definition spec_up_report (s : Z) : list Z := [0; s; 0; 0].

(** The transmissions of a key event of magnitude [n]: down, up, [n] times. *)
Fixpoint spec_key_sequence (n : nat) (k : Z) : list (list Z) :=
  match n with
  | O => []
  | S n' => spec_down_report k 0 :: spec_up_report 0 :: spec_key_sequence n' k
  end.

(** The report that goes with a value of the pacing counter: none of the
    key bytes when the counter is not positive, otherwise down when it is
    even and up when it is odd. *)
Definition spec_report (k c s : Z) : list Z :=
  if (c >? 0) && Z.even c then spec_down_report k s else spec_up_report s.

(** The reports of the counter values [c], [c - 1], ..., 1. *)
Fixpoint spec_countdown (c : nat) (k : Z) : list (list Z) :=
  match c with
  | O => []
  | S c' => spec_report k (Z.of_nat c) 0 :: spec_countdown c' k
  end.

(** The endpoint at rest: [key], [count] and [scroll] as their initialisers
    leave them, the buffer holding an all-zero report. *)
Definition idle : HidEndpoint := {| key := 0; count := 0; scroll := 0; txBuffer := [0; 0; 0; 0] |}.

(** The endpoint's transmit buffer has its four bytes. *)
Definition wf (e : HidEndpoint) : Prop := length (txBuffer e) = sizeof_txBuffer.

End Hid.

(* ===================================================================== *)
(** ** gesture.cpp: GestureDecoder *)
(* ===================================================================== *)

Module Gesture.

Import Keys.

(** Modelled from the spec: the [TouchSensor] class is not in src.  The
    spec gives it [channelCount()] and [channelIntensity(index)], "pure,
    side-effect-free reads, valid for the duration of one tick": a sensor
    is the list of the channel intensities of the current tick. *)
Definition TouchSensor : Type := list Z.
Definition getChannelCount (touchSensor : TouchSensor) : Z := Z.of_nat (length touchSensor).
Definition getChannel (touchSensor : TouchSensor) (i : nat) : Z := at_index touchSensor i.

(** Modelled from the spec: the [DeviceConfiguration] declaration is not in
    src.  The spec gives it as "flipAxis: bool, scale: positive integer,
    function: enum Volume, Brightness, Scroll". *)
Inductive DeviceFunction : Type :=
| DEVICE_FUNCTION_VOLUME
| DEVICE_FUNCTION_BRIGHTNESS
| DEVICE_FUNCTION_SCROLL.

Record DeviceConfiguration : Type := mkDeviceConfiguration {
  flip : bool;
  scale : Z;
  function : DeviceFunction
}.

Definition queueSize : nat := 4.
Definition TAP_MAX_DURATION : Z := 15.
Definition DOUBLE_TAP_WINDOW : Z := 20.

(** The data members of [class GestureDecoder] (the three collaborators
    are passed to the methods that use them). *)
Record GestureDecoder : Type := mkGestureDecoder {
  oldFingerPos : Z;
  queue : list Z;
  touchStartTime : Z;
  lastTapTime : Z;
  currentTime : Z;
  hasMoved : bool;
  isTouching : bool;
  waitingForDoubleTap : bool;
  releaseProcessed : bool
}.

(** The member initialisers; [queue] has none in the source, so its
    initial contents are a parameter. *)
Definition initial (queue0 : list Z) : GestureDecoder := {|
  oldFingerPos := -1;
  queue := queue0;
  touchStartTime := 0;
  lastTapTime := 0;
  currentTime := 0;
  hasMoved := false;
  isTouching := false;
  waitingForDoubleTap := false;
  releaseProcessed := true
|}.

Definition set_oldFingerPos (v : Z) (d : GestureDecoder) : GestureDecoder :=
  mkGestureDecoder v (queue d) (touchStartTime d) (lastTapTime d) (currentTime d)
    (hasMoved d) (isTouching d) (waitingForDoubleTap d) (releaseProcessed d).
Definition set_queue (v : list Z) (d : GestureDecoder) : GestureDecoder :=
  mkGestureDecoder (oldFingerPos d) v (touchStartTime d) (lastTapTime d) (currentTime d)
    (hasMoved d) (isTouching d) (waitingForDoubleTap d) (releaseProcessed d).
Definition set_touchStartTime (v : Z) (d : GestureDecoder) : GestureDecoder :=
  mkGestureDecoder (oldFingerPos d) (queue d) v (lastTapTime d) (currentTime d)
    (hasMoved d) (isTouching d) (waitingForDoubleTap d) (releaseProcessed d).
Definition set_lastTapTime (v : Z) (d : GestureDecoder) : GestureDecoder :=
  mkGestureDecoder (oldFingerPos d) (queue d) (touchStartTime d) v (currentTime d)
    (hasMoved d) (isTouching d) (waitingForDoubleTap d) (releaseProcessed d).
Definition set_currentTime (v : Z) (d : GestureDecoder) : GestureDecoder :=
  mkGestureDecoder (oldFingerPos d) (queue d) (touchStartTime d) (lastTapTime d) v
    (hasMoved d) (isTouching d) (waitingForDoubleTap d) (releaseProcessed d).
Definition set_hasMoved (v : bool) (d : GestureDecoder) : GestureDecoder :=
  mkGestureDecoder (oldFingerPos d) (queue d) (touchStartTime d) (lastTapTime d) (currentTime d)
    v (isTouching d) (waitingForDoubleTap d) (releaseProcessed d).
Definition set_isTouching (v : bool) (d : GestureDecoder) : GestureDecoder :=
  mkGestureDecoder (oldFingerPos d) (queue d) (touchStartTime d) (lastTapTime d) (currentTime d)
    (hasMoved d) v (waitingForDoubleTap d) (releaseProcessed d).
Definition set_waitingForDoubleTap (v : bool) (d : GestureDecoder) : GestureDecoder :=
  mkGestureDecoder (oldFingerPos d) (queue d) (touchStartTime d) (lastTapTime d) (currentTime d)
    (hasMoved d) (isTouching d) v (releaseProcessed d).
Definition set_releaseProcessed (v : bool) (d : GestureDecoder) : GestureDecoder :=
  mkGestureDecoder (oldFingerPos d) (queue d) (touchStartTime d) (lastTapTime d) (currentTime d)
    (hasMoved d) (isTouching d) (waitingForDoubleTap d) v.

(** The first part of [checkSensor] (lines 62-82): the finger position of
    a sample, [-1] for no finger.  The loop state is [(max, avg, maxIndex)]. *)
Definition newFingerPosOf (touchSensor : TouchSensor) : Z :=
  let max := 0 in
  let avg := 0 in
  let maxIndex := 0 in
  let channelCount := getChannelCount touchSensor in
  let '(max, avg, maxIndex) :=
    for_up (Z.to_nat channelCount) 0
      (fun i '(max, avg, maxIndex) =>
         let v := getChannel touchSensor i in
         let avg := add32 avg v in
         if v >? max then (v, avg, Z.of_nat i) else (max, avg, maxIndex))
      (max, avg, maxIndex) in
  let avg := div32 avg channelCount in
  if max >? mul32 avg 2 then maxIndex else -1.

(** [void checkSensor()] *)
Definition checkSensor (cfg : DeviceConfiguration) (touchSensor : TouchSensor)
    (d : GestureDecoder) : GestureDecoder :=
  let newFingerPos := newFingerPosOf touchSensor in
  let d :=
    if (newFingerPos >=? 0) && negb (isTouching d) then
      let d := set_isTouching true d in
      let d := set_touchStartTime (currentTime d) d in
      let d := set_hasMoved false d in
      set_releaseProcessed false d
    else if (newFingerPos <? 0) && isTouching d then
      set_isTouching false d
    else d in
  let d :=
    if negb (newFingerPos =? oldFingerPos d) && (newFingerPos >=? 0) && (oldFingerPos d >=? 0) then
      let change := sub32 (oldFingerPos d) newFingerPos in
      if negb (change =? 0) then
        let d := set_hasMoved true d in
        let change := if flip cfg then neg32 change else change in
        set_queue (<[0%nat := to_schar (mul32 change (scale cfg))]> (queue d)) d
      else d
    else d in
  set_oldFingerPos newFingerPos d.

(** [void checkTap()] *)
Definition checkTap {R : Type} `{KeyReporter R} (st : GestureDecoder * R) : GestureDecoder * R :=
  let '(d, keyReporter) := st in
  let '(d, keyReporter) :=
    if negb (isTouching d) && negb (releaseProcessed d) then
      let d := set_releaseProcessed true d in
      let touchDuration := sub32 (currentTime d) (touchStartTime d) in
      if (touchDuration <? TAP_MAX_DURATION) && (touchDuration >? 0) && negb (hasMoved d) then
        if waitingForDoubleTap d && (sub32 (currentTime d) (lastTapTime d) <? DOUBLE_TAP_WINDOW) then
          let keyReporter := reportKey KEY_LOCK_WORKSTATION 1 keyReporter in
          (set_waitingForDoubleTap false d, keyReporter)
        else
          let d := set_waitingForDoubleTap true d in
          (set_lastTapTime (currentTime d) d, keyReporter)
      else (d, keyReporter)
    else (d, keyReporter) in
  if waitingForDoubleTap d && (sub32 (currentTime d) (lastTapTime d) >=? DOUBLE_TAP_WINDOW) then
    let keyReporter := reportKey KEY_MIC_MUTE 1 keyReporter in
    (set_waitingForDoubleTap false d, keyReporter)
  else (d, keyReporter).

(** The body of [optimizeQueue] on the array [queue]. *)
Definition optimize (queue : list Z) : list Z :=
  let '(positives, negatives) :=
    for_up queueSize 0
      (fun i '(positives, negatives) =>
         let positives :=
           if at_index queue i >? 0 then add32 positives (at_index queue i) else positives in
         let negatives :=
           if at_index queue i <? 0 then sub32 negatives (at_index queue i) else negatives in
         (positives, negatives))
      (0, 0) in
  let '(correction, side) :=
    if positives >? negatives then (negatives, -1) else (positives, 1) in
  let queue :=
    for_up queueSize 0
      (fun i queue => if mul32 (at_index queue i) side >? 0 then <[i := 0]> queue else queue)
      queue in
  let '(queue, correction) :=
    for_down queueSize
      (fun i '(queue, correction) =>
         let v := at_index queue i in
         let v := if v <? 0 then neg32 v else v in
         let c := correction in
         let c := if c >? v then v else c in
         (<[i := to_schar (add32 (at_index queue i) (mul32 c side))]> queue,
          sub32 correction c))
      (queue, correction) in
  queue.

(** [void optimizeQueue()] *)
Definition optimizeQueue (d : GestureDecoder) : GestureDecoder :=
  set_queue (optimize (queue d)) d.

(** [void checkQueue()] *)
Definition checkQueue {R : Type} `{KeyReporter R} (cfg : DeviceConfiguration)
    (st : GestureDecoder * R) : GestureDecoder * R :=
  let '(d, keyReporter) := st in
  let change := at_index (queue d) (queueSize - 1) in
  let keyReporter :=
    match function cfg with
    | DEVICE_FUNCTION_VOLUME =>
        let keyReporter :=
          if change >? 0 then reportKey KEY_VOLUME_UP change keyReporter else keyReporter in
        if change <? 0 then reportKey KEY_VOLUME_DOWN (neg32 change) keyReporter
        else keyReporter
    | DEVICE_FUNCTION_BRIGHTNESS =>
        let keyReporter :=
          if change >? 0 then reportKey KEY_BRIGHTNESS_UP change keyReporter else keyReporter in
        if change <? 0 then reportKey KEY_BRIGHTNESS_DOWN (neg32 change) keyReporter
        else keyReporter
    | DEVICE_FUNCTION_SCROLL => reportScroll change keyReporter
    end in
  let queue :=
    for_down (queueSize - 1) (fun i queue => <[S i := at_index queue i]> queue) (queue d) in
  let queue := <[0%nat := 0]> queue in
  (set_queue queue d, keyReporter).

(** [void onTimer()]; re-arming the timer ([start(2)]) is the scheduler's
    business and has no effect on the decoder's data. *)
Definition onTimer {R : Type} `{KeyReporter R} (cfg : DeviceConfiguration)
    (touchSensor : TouchSensor) (st : GestureDecoder * R) : GestureDecoder * R :=
  let '(d, keyReporter) := st in
  let d := set_currentTime (add32 (currentTime d) 1) d in
  let d := checkSensor cfg touchSensor d in
  let '(d, keyReporter) := checkTap (d, keyReporter) in
  let d := optimizeQueue d in
  checkQueue cfg (d, keyReporter).

(** The decoder driven by a sequence of ticks, one sensor snapshot each. *)
Definition run {R : Type} `{KeyReporter R} (cfg : DeviceConfiguration)
    (ticks : list TouchSensor) (st : GestureDecoder * R) : GestureDecoder * R :=
  fold_left (fun st touchSensor => onTimer cfg touchSensor st) ticks st.

(** *** The sensor loop as a pass over the list of channels *)

(** One round of the sensor loop. *)
Definition scan_step (i : nat) (v : Z) (acc : Z * Z * Z) : Z * Z * Z :=
  let '(max, avg, maxIndex) := acc in
  let avg := add32 avg v in
  if v >? max then (v, avg, Z.of_nat i) else (max, avg, maxIndex).

Fixpoint scan (l : list Z) (i : nat) (acc : Z * Z * Z) : Z * Z * Z :=
  match l with
  | [] => acc
  | v :: l' => scan l' (S i) (scan_step i v acc)
  end.

(** *** The position tracker in the specification's words (section 4.1)

    "compute max and average across channels; if max > 2 x average,
    position = index of the maximal channel, else no contact". *)
Definition sum_list (l : list Z) : Z := fold_right Z.add 0 l.
(** The largest of the intensities (of non-negative intensities). *)
Definition max_list (l : list Z) : Z := fold_right Z.max 0 l.
(** The average of the intensities, as a rational number. *)
Definition spec_average (touchSensor : TouchSensor) : Q :=
  (inject_Z (sum_list touchSensor) / inject_Z (Z.of_nat (length touchSensor)))%Q.
(** The average as [checkSensor] computes it: the quotient of the integer
    division, which truncates. *)
Definition int_average (touchSensor : TouchSensor) : Z :=
  Z.quot (sum_list touchSensor) (Z.of_nat (length touchSensor)).
(** [i] is the index of the maximal channel, the first one if several
    channels are maximal. *)
Definition is_max_index (touchSensor : TouchSensor) (i : nat) : Prop :=
  (i < length touchSensor)%nat
  /\ at_index touchSensor i = max_list touchSensor
  /\ forall j, (j < i)%nat -> at_index touchSensor j < max_list touchSensor.

(** *** The smoothing queue in the specification's words (section 4.3)

    "Let positiveSum = sum of positive entries, negativeSum = sum of
    absolute values of negative entries." *)
Definition positiveSum (q : list Z) : Z := fold_right (fun x s => Z.max x 0 + s) 0 q.
Definition negativeSum (q : list Z) : Z := fold_right (fun x s => Z.max (- x) 0 + s) 0 q.
(** "no two nonzero entries have opposite signs" *)
Definition directional_purity (q : list Z) : Prop :=
  forall i j : nat, ~ (at_index q i < 0 /\ 0 < at_index q j).
(** The entries are [signed char]s. *)
Definition queue_ok (q : list Z) : Prop := length q = queueSize /\ Forall is_schar q.

(** *** The loops of optimizeQueue as passes over the list

    The first loop tallies the entries, the second maps over them, and the
    third, which runs from the last index down, treats the tail of the list
    before its head. *)
Definition tally (acc : Z * Z) (x : Z) : Z * Z :=
  let '(positives, negatives) := acc in
  let positives := if x >? 0 then add32 positives x else positives in
  let negatives := if x <? 0 then sub32 negatives x else negatives in
  (positives, negatives).

Definition cancel (side x : Z) : Z := if mul32 x side >? 0 then 0 else x.

Fixpoint absorb (side : Z) (q : list Z) (correction : Z) : list Z * Z :=
  match q with
  | [] => ([], correction)
  | x :: rest =>
      let '(rest, correction) := absorb side rest correction in
      let v := x in
      let v := if v <? 0 then neg32 v else v in
      let c := correction in
      let c := if c >? v then v else c in
      (to_schar (add32 x (mul32 c side)) :: rest, sub32 correction c)
  end.

Definition optimize_pass (q : list Z) : list Z :=
  let '(positives, negatives) := fold_left tally q (0, 0) in
  let '(correction, side) :=
    if positives >? negatives then (negatives, -1) else (positives, 1) in
  fst (absorb side (map (cancel side) q) correction).

(** The entries that survive the second loop: [signed char]s on the side
    opposite to [side]. *)
Definition on_side (side x : Z) : Prop := is_schar x /\ x * side <= 0.

(** *** The optimisation pass in closed form *)

(** The third loop in closed form, for entries on one side: the correction
    that reaches an entry is what the entries after it have not absorbed,
    and the entry gives up as much of it as its magnitude allows. *)
Fixpoint settle (side correction : Z) (q : list Z) : list Z :=
  match q with
  | [] => []
  | x :: rest =>
      x + side * Z.min (Z.abs x) (Z.max 0 (correction + side * sum_list rest))
      :: settle side correction rest
  end.

(** The whole pass in closed form: the minority side is dropped and the
    majority side settles the minority's total. *)
Definition smooth (q : list Z) : list Z :=
  if positiveSum q >? negativeSum q
  then settle (-1) (negativeSum q) (map (fun x => Z.max x 0) q)
  else settle 1 (positiveSum q) (map (fun x => Z.min x 0) q).

(** *** Reports under a change of orientation or of scale

    What "inverts the reported slide direction" and "multiplies the
    reported magnitude" mean for a call on the key reporter: the taps are
    not slide reports and stay as they are. *)
Definition is_slide_key (key : Z) : bool :=
  (key =? KEY_VOLUME_UP) || (key =? KEY_VOLUME_DOWN)
  || (key =? KEY_BRIGHTNESS_UP) || (key =? KEY_BRIGHTNESS_DOWN).

Definition opposite_key (key : Z) : Z :=
  if key =? KEY_VOLUME_UP then KEY_VOLUME_DOWN
  else if key =? KEY_VOLUME_DOWN then KEY_VOLUME_UP
  else if key =? KEY_BRIGHTNESS_UP then KEY_BRIGHTNESS_DOWN
  else if key =? KEY_BRIGHTNESS_DOWN then KEY_BRIGHTNESS_UP
  else key.

Definition mirror (c : Call) : Call :=
  match c with
  | ReportKey key count => ReportKey (opposite_key key) count
  | ReportScroll steps => ReportScroll (- steps)
  end.

Definition magnified (k : Z) (c : Call) : Call :=
  match c with
  | ReportKey key count => if is_slide_key key then ReportKey key (k * count) else c
  | ReportScroll steps => ReportScroll (k * steps)
  end.

(** Both at once: the reports for a delta multiplied by [m]. *)
Definition times (m : Z) (c : Call) : Call :=
  if m <? 0 then mirror (magnified (- m) c) else magnified m c.

Definition with_flip (b : bool) (cfg : DeviceConfiguration) : DeviceConfiguration :=
  {| flip := b; scale := scale cfg; function := function cfg |}.
Definition with_scale (k : Z) (cfg : DeviceConfiguration) : DeviceConfiguration :=
  {| flip := flip cfg; scale := k; function := function cfg |}.

(** The factor that [checkSensor] applies to a raw delta. *)
Definition factor (cfg : DeviceConfiguration) : Z :=
  (if flip cfg then -1 else 1) * scale cfg.

(** The calls of [checkQueue] for the value of the oldest slot. *)
Definition slide_calls (f : DeviceFunction) (change : Z) : list Call :=
  match f with
  | DEVICE_FUNCTION_VOLUME =>
      (if change >? 0 then [ReportKey KEY_VOLUME_UP change] else [])
      ++ (if change <? 0 then [ReportKey KEY_VOLUME_DOWN (neg32 change)] else [])
  | DEVICE_FUNCTION_BRIGHTNESS =>
      (if change >? 0 then [ReportKey KEY_BRIGHTNESS_UP change] else [])
      ++ (if change <? 0 then [ReportKey KEY_BRIGHTNESS_DOWN (neg32 change)] else [])
  | DEVICE_FUNCTION_SCROLL => [ReportScroll change]
  end.

(** A finger position: none, or a channel below [n]. *)
Definition position_below (n pos : Z) : Prop := pos = -1 \/ 0 <= pos < n.

(** A queue whose entries, multiplied by [m], are within -127..127. *)
Definition queue_within (m : Z) (q : list Z) : Prop :=
  length q = queueSize /\ Forall (fun x => - SCHAR_MAX <= m * x <= SCHAR_MAX) q.

(** *** Sample inputs

    A three-channel strip with a finger on channel 0, and with no finger;
    the decoder in its Volume configuration; a queue of zeros. *)
Definition finger_on_0 : TouchSensor := [10; 0; 0].
Definition no_finger : TouchSensor := [0; 0; 0].
Definition volume_config : DeviceConfiguration :=
  {| flip := false; scale := 1; function := DEVICE_FUNCTION_VOLUME |}.
Definition empty_queue : list Z := [0; 0; 0; 0].

(** A finger on channel 1 that moves to channel 0 and lifts. *)
Definition finger_on_1 : TouchSensor := [0; 10; 0].
Definition slide_1_to_0 : list TouchSensor :=
  [finger_on_1; finger_on_0] ++ repeat no_finger 4.

(** A tap released on tick 2, then a second tap touching on tick 21, to be
    released on tick 22, which is DOUBLE_TAP_WINDOW ticks after the first
    release. *)
Definition tap_then_touch_at_21 : list TouchSensor :=
  [finger_on_0; no_finger] ++ repeat no_finger 18 ++ [finger_on_0].

(** The decoder as it enters [checkTap] on the next tick, for the sensor
    snapshot of that tick. *)
Definition entering_checkTap (cfg : DeviceConfiguration) (touchSensor : TouchSensor)
    (d : GestureDecoder) : GestureDecoder :=
  checkSensor cfg touchSensor (set_currentTime (add32 (currentTime d) 1) d).

(** A decoder on the tick where the release of a second quick tap is seen. *)
Definition second_tap_released : GestureDecoder := {|
  oldFingerPos := -1;
  queue := empty_queue;
  touchStartTime := 10;
  lastTapTime := 5;
  currentTime := 12;
  hasMoved := false;
  isTouching := false;
  waitingForDoubleTap := true;
  releaseProcessed := false
|}.

End Gesture.

(* ===================================================================== *)
(** * Properties *)
(* ===================================================================== *)

Module MachIntFacts.

Lemma wrap32_small z : is_int z -> wrap32 z = z.
Proof.
  unfold is_int, INT_MIN, INT_MAX, wrap32, swrap. intros H.
  change (2 ^ (32 - 1)) with 2147483648. change (2 ^ 32) with 4294967296.
  rewrite Z.mod_small by lia. lia.
Qed.

Lemma wrap32_range z : is_int (wrap32 z).
Proof.
  unfold is_int, INT_MIN, INT_MAX, wrap32, swrap.
  change (2 ^ (32 - 1)) with 2147483648. change (2 ^ 32) with 4294967296.
  pose proof (Z.mod_pos_bound (z + 2147483648) 4294967296). lia.
Qed.

Lemma to_schar_small z : is_schar z -> to_schar z = z.
Proof.
  unfold is_schar, SCHAR_MIN, SCHAR_MAX, to_schar, swrap. intros H.
  change (2 ^ (8 - 1)) with 128. change (2 ^ 8) with 256.
  rewrite Z.mod_small by lia. lia.
Qed.

Lemma to_schar_range z : is_schar (to_schar z).
Proof.
  unfold is_schar, SCHAR_MIN, SCHAR_MAX, to_schar, swrap.
  change (2 ^ (8 - 1)) with 128. change (2 ^ 8) with 256.
  pose proof (Z.mod_pos_bound (z + 128) 256). lia.
Qed.

(** The stored [signed char] differs from the [int] by a multiple of 2^8. *)
Lemma to_schar_congr z : (to_schar z - z) mod 256 = 0.
Proof.
  unfold to_schar, swrap.
  change (2 ^ (8 - 1)) with 128. change (2 ^ 8) with 256.
  pose proof (Z.div_mod (z + 128) 256).
  replace ((z + 128) mod 256 - 128 - z) with (- ((z + 128) / 256) * 256) by lia.
  apply Z.mod_mul. lia.
Qed.

(** Narrowing to 8 bits does not see an earlier wrap to 32 bits. *)
Lemma to_schar_wrap32 z : to_schar (wrap32 z) = to_schar z.
Proof.
  unfold to_schar, wrap32, swrap.
  change (2 ^ (8 - 1)) with 128. change (2 ^ 8) with 256.
  change (2 ^ (32 - 1)) with 2147483648. change (2 ^ 32) with 4294967296.
  f_equal.
  pose proof (Z.div_mod (z + 2147483648) 4294967296).
  replace ((z + 2147483648) mod 4294967296 - 2147483648 + 128)
    with (z + 128 + (- ((z + 2147483648) / 4294967296) * 16777216) * 256) by lia.
  apply Z.mod_add. lia.
Qed.

Lemma to_uchar_range z : is_uchar (to_uchar z).
Proof.
  unfold is_uchar, to_uchar. pose proof (Z.mod_pos_bound z 256). lia.
Qed.

Lemma to_uchar_small z : is_uchar z -> to_uchar z = z.
Proof. unfold is_uchar, to_uchar. intros H. apply Z.mod_small. lia. Qed.

Lemma land_1_even c : truthy (Z.land c 1) = negb (Z.even c).
Proof.
  unfold truthy. f_equal.
  change 1 with (Z.ones 1). rewrite Z.land_ones by lia.
  change (2 ^ 1) with 2. rewrite Zmod_even. destruct (Z.even c); reflexivity.
Qed.

End MachIntFacts.

Import MachIntFacts.

Module HidFacts.

Import Keys Hid.

#[local] Arguments to_uchar : simpl never.
#[local] Arguments sub32 : simpl never.
#[local] Arguments shl32 : simpl never.
#[local] Arguments mul32 : simpl never.

Lemma wf_buffer e : wf e -> exists b0 b1 b2 b3, txBuffer e = [b0; b1; b2; b3].
Proof.
  unfold wf, sizeof_txBuffer. intros H.
  destruct (txBuffer e) as [|b0 [|b1 [|b2 [|b3 [|]]]]]; try discriminate.
  eauto.
Qed.

(** One transmission: the bytes handed to the transport are the phase
    report of the counter's value, the counter is decremented when it was
    positive, and the pending scroll is cleared. *)
Lemma sendReport_spec e :
  wf e ->
  sendReport e =
    ({| key := key e;
        count := if count e >? 0 then sub32 (count e) 1 else count e;
        scroll := 0;
        txBuffer := spec_report (key e) (count e) (to_uchar (scroll e)) |},
     spec_report (key e) (count e) (to_uchar (scroll e))).
Proof.
  intros Hwf. destruct (wf_buffer e Hwf) as (b0 & b1 & b2 & b3 & Hb).
  unfold sendReport, spec_report, spec_down_report, spec_up_report.
  rewrite Hb, land_1_even, negb_involutive.
  destruct (count e >? 0), (key e =? KEY_LOCK_WORKSTATION), (Z.even (count e));
    reflexivity.
Qed.

Lemma sendReport_wf e : wf e -> wf (fst (sendReport e)).
Proof.
  intros Hwf. rewrite sendReport_spec by assumption. unfold wf, spec_report; simpl.
  unfold spec_down_report, spec_up_report.
  destruct ((count e >? 0) && Z.even (count e)), (key e =? KEY_LOCK_WORKSTATION);
    reflexivity.
Qed.


Lemma spec_report_positive_even k c s :
  0 < c -> Z.even c = true -> spec_report k c s = spec_down_report k s.
Proof.
  intros Hc He. unfold spec_report. rewrite He.
  replace (c >? 0) with true by (symmetry; apply Z.gtb_lt; lia). reflexivity.
Qed.

Lemma spec_report_odd k c s : Z.even c = false -> spec_report k c s = spec_up_report s.
Proof. intros He. unfold spec_report. rewrite He, andb_false_r. reflexivity. Qed.

Lemma spec_countdown_length c k : length (spec_countdown c k) = c.
Proof. induction c as [|c IH]; simpl; [reflexivity | now rewrite IH]. Qed.

(** Counting down from an even value gives whole down/up pairs. *)
Lemma spec_countdown_double m k :
  spec_countdown (2 * m) k = spec_key_sequence m k.
Proof.
  induction m as [|m IH]; [reflexivity|].
  replace (2 * S m)%nat with (S (S (2 * m))) by lia.
  cbn [spec_countdown spec_key_sequence]. rewrite IH. f_equal; [|f_equal].
  - apply spec_report_positive_even; [lia|].
    replace (Z.of_nat (S (S (2 * m)))) with (2 * (Z.of_nat m + 1)) by lia.
    apply Z.even_mul.
  - apply spec_report_odd.
    replace (Z.of_nat (S (2 * m))) with (2 * Z.of_nat m + 1) by lia.
    apply Z.even_odd.
Qed.

(** The notifications delivered to an endpoint whose counter stands at
    [c]: each of the first [c] starts the transfer of the next counter
    value and takes one off the counter; the one after starts nothing. *)
Lemma completions_countdown fuel : forall c e,
  wf e -> scroll e = 0 -> count e = Z.of_nat c -> Z.of_nat c <= INT_MAX ->
  snd (completions fuel e) = take fuel (spec_countdown c (key e))
  /\ count (fst (completions fuel e)) = Z.of_nat (c - fuel)
  /\ key (fst (completions fuel e)) = key e
  /\ scroll (fst (completions fuel e)) = 0
  /\ wf (fst (completions fuel e)).
Proof.
  induction fuel as [|fuel IH]; intros c e Hwf Hs Hc Hmax.
  - simpl. rewrite Nat.sub_0_r. auto.
  - cbn [completions]. unfold txComplete.
    destruct c as [|c].
    + rewrite Hc. simpl. rewrite Hc. auto.
    + replace (truthy (count e)) with true
        by (rewrite Hc; unfold truthy; symmetry; apply negb_true_iff, Z.eqb_neq; lia).
      pose proof (sendReport_wf e Hwf) as Hwf1.
      rewrite sendReport_spec in * by assumption.
      cbn [fst] in Hwf1.
      set (e1 := {| key := key e;
                    count := if count e >? 0 then sub32 (count e) 1 else count e;
                    scroll := 0;
                    txBuffer := spec_report (key e) (count e) (to_uchar (scroll e)) |}) in *.
      assert (Hc1 : count e1 = Z.of_nat c).
      { subst e1. cbn [count]. rewrite Hc.
        replace (Z.of_nat (S c) >? 0) with true by (symmetry; apply Z.gtb_lt; lia).
        unfold sub32. rewrite wrap32_small; [lia|].
        unfold is_int, INT_MIN, INT_MAX in *. lia. }
      destruct (IH c e1 Hwf1 eq_refl Hc1 ltac:(lia)) as (Hr & Hcnt & Hk & Hsc & Hw).
      destruct (completions fuel e1) as [e2 more] eqn:E.
      cbn [fst snd] in *. rewrite Hr, Hs, Hc.
      replace (S c - S fuel)%nat with (c - fuel)%nat by lia.
      subst e1. cbn [key] in *. auto.
Qed.

(** Distinct phases give distinct reports for the six keys of keys.cpp. *)
Lemma down_report_not_up k s :
  KEY_VOLUME_UP <= k <= KEY_LOCK_WORKSTATION -> spec_down_report k s <> spec_up_report s.
Proof.
  unfold KEY_VOLUME_UP, KEY_LOCK_WORKSTATION. intros Hk.
  assert (k = 0 \/ k = 1 \/ k = 2 \/ k = 3 \/ k = 4 \/ k = 5) as Hcases by lia.
  destruct Hcases as [-> | [-> | [-> | [-> | [-> | ->]]]]];
    vm_compute; discriminate.
Qed.

(** C3. A key event of positive magnitude [n] (with [2 * n] an [int])
    sets the pacing counter to [2 * n] and causes exactly [2 * n]
    transmissions: [reportKey] starts the first, each completion
    notification starts the next and every transmission takes one off the
    counter; the report of an even counter value is the down report and
    that of an odd value the up report, so the transmissions are down, up,
    [n] times, starting with down; after the last one the counter is zero
    and a completion starts nothing. *)
Theorem reportKey_pacing (k n : Z) (e : HidEndpoint) :
  wf e -> 0 < n -> 2 * n <= INT_MAX ->
  exists e1 first,
    reportKey k n e = (e1, Some first)
    /\ (e1, first) =
         sendReport {| key := k; count := 2 * n; scroll := scroll e; txBuffer := txBuffer e |}
    /\ first = spec_report k (2 * n) (to_uchar (scroll e))
    /\ (forall j : nat, Z.of_nat j <= 2 * n - 1 ->
          count (fst (completions j e1)) = 2 * n - 1 - Z.of_nat j
          /\ length (snd (completions j e1)) = j)
    /\ (forall fuel : nat, 2 * n - 1 <= Z.of_nat fuel ->
          let '(e2, rest) := completions fuel e1 in
          rest = spec_countdown (Z.to_nat (2 * n - 1)) k
          /\ first :: rest =
               spec_down_report k (to_uchar (scroll e)) :: tail (spec_key_sequence (Z.to_nat n) k)
          /\ Z.of_nat (length (first :: rest)) = 2 * n
          /\ count e2 = 0
          /\ txComplete e2 = (e2, None))
    /\ (KEY_VOLUME_UP <= k <= KEY_LOCK_WORKSTATION ->
          spec_down_report k 0 <> spec_up_report 0).
Proof.
  intros Hwf Hn Hmax.
  set (e0 := {| key := k; count := 2 * n; scroll := scroll e; txBuffer := txBuffer e |}).
  assert (Hwf0 : wf e0) by exact Hwf.
  assert (Hmul : mul32 n 2 = 2 * n).
  { unfold mul32. rewrite wrap32_small; [lia|]. unfold is_int, INT_MIN, INT_MAX in *. lia. }
  assert (Hrk : reportKey k n e = (fst (sendReport e0), Some (snd (sendReport e0)))).
  { unfold reportKey.
    replace (truthy n) with true
      by (unfold truthy; symmetry; apply negb_true_iff, Z.eqb_neq; lia).
    rewrite Hmul. fold e0. destruct (sendReport e0); reflexivity. }
  pose proof (sendReport_wf e0 Hwf0) as Hwf1.
  pose proof (sendReport_spec e0 Hwf0) as Hsend.
  destruct (sendReport e0) as [e1 first] eqn:E0. cbn [fst snd] in *.
  injection Hsend as He1 Hfirst.
  assert (Hk1 : key e1 = k) by (rewrite He1; reflexivity).
  assert (Hs1 : scroll e1 = 0) by (rewrite He1; reflexivity).
  assert (Hc1 : count e1 = Z.of_nat (Z.to_nat (2 * n - 1))).
  { rewrite He1. cbn [count key e0].
    replace (2 * n >? 0) with true by (symmetry; apply Z.gtb_lt; lia).
    unfold sub32. rewrite wrap32_small; [lia|].
    unfold is_int, INT_MIN, INT_MAX in *. lia. }
  assert (Hfirst' : first = spec_down_report k (to_uchar (scroll e))).
  { rewrite Hfirst. cbn [count key scroll e0].
    apply spec_report_positive_even; [lia|]. apply Z.even_mul. }
  exists e1, first. split; [exact Hrk|]. split; [reflexivity|].
  split; [rewrite Hfirst; reflexivity|].
  split; [|split].
  - intros j Hj.
    destruct (completions_countdown j _ e1 Hwf1 Hs1 Hc1 ltac:(lia)) as (Hr & Hcnt & _).
    rewrite Hcnt, Hr, length_take, spec_countdown_length. lia.
  - intros fuel Hfuel.
    destruct (completions_countdown fuel _ e1 Hwf1 Hs1 Hc1 ltac:(lia))
      as (Hr & Hcnt & _ & _ & _).
    destruct (completions fuel e1) as [e2 rest]. cbn [fst snd] in *.
    assert (Hrest : rest = spec_countdown (Z.to_nat (2 * n - 1)) k).
    { rewrite Hr, Hk1. apply take_ge. rewrite spec_countdown_length. lia. }
    assert (Hcnt0 : count e2 = 0) by (rewrite Hcnt; lia).
    split; [exact Hrest|]. split; [|split; [|split]].
    + rewrite Hfirst'. f_equal. rewrite Hrest.
      replace (Z.to_nat n) with (S (Z.to_nat n - 1)) by lia.
      cbn [spec_key_sequence tail].
      replace (Z.to_nat (2 * n - 1)) with (S (2 * (Z.to_nat n - 1))) by lia.
      cbn [spec_countdown]. rewrite spec_countdown_double. f_equal.
      apply spec_report_odd.
      replace (Z.of_nat (S (2 * (Z.to_nat n - 1)))) with (2 * (n - 1) + 1) by lia.
      apply Z.even_odd.
    + rewrite Hrest. cbn [length]. rewrite spec_countdown_length. lia.
    + exact Hcnt0.
    + unfold txComplete. rewrite Hcnt0. reflexivity.
  - apply down_report_not_up.
Qed.


Lemma reportKey_pacing_witness :
  wf idle /\ 0 < 3 /\ 2 * 3 <= INT_MAX
  /\ exists e1 first,
       reportKey KEY_VOLUME_UP 3 idle = (e1, Some first)
       /\ first :: snd (completions 6 e1)
          = [[1; 0; 0; 0]; [0; 0; 0; 0]; [1; 0; 0; 0]; [0; 0; 0; 0]; [1; 0; 0; 0]; [0; 0; 0; 0]].
Proof.
  assert (H1 : wf idle) by reflexivity.
  assert (H2 : 0 < 3) by lia.
  assert (H3 : 2 * 3 <= INT_MAX) by (unfold INT_MAX; lia).
  split; [exact H1|]. split; [exact H2|]. split; [exact H3|].
  destruct (reportKey_pacing KEY_VOLUME_UP 3 idle H1 H2 H3)
    as (e1 & first & Hrk & _ & _ & _ & Hall & _).
  exists e1, first. split; [exact Hrk|].
  specialize (Hall 6%nat ltac:(lia)).
  destruct (completions 6 e1) as [e2 rest].
  destruct Hall as (_ & Hseq & _). exact Hseq.
Defined.

(** After a scroll report nothing is pending: no completion starts a
    transfer. *)
Lemma completions_idle fuel e : count e = 0 -> completions fuel e = (e, []).
Proof.
  intros Hc. destruct fuel as [|fuel]; [reflexivity|].
  cbn [completions]. unfold txComplete. rewrite Hc. reflexivity.
Qed.

Lemma reportScroll_spec steps e :
  wf e ->
  reportScroll steps e =
    ({| key := 0; count := 0; scroll := 0; txBuffer := spec_up_report (to_uchar steps) |},
     spec_up_report (to_uchar steps)).
Proof.
  intros Hwf. unfold reportScroll. rewrite sendReport_spec by exact Hwf. reflexivity.
Qed.

(** C7. A scroll event of value 0 starts exactly one transfer, whose four
    bytes are zero; it leaves the pacing counter at zero, so that no
    completion starts a further transfer, and the pending scroll value is
    zero again once the report is written. *)
Theorem reportScroll_zero (e : HidEndpoint) :
  wf e ->
  exists e1,
    reportScroll 0 e = (e1, [0; 0; 0; 0])
    /\ count e1 = 0
    /\ scroll e1 = 0
    /\ txComplete e1 = (e1, None)
    /\ forall fuel, completions fuel e1 = (e1, []).
Proof.
  intros Hwf. rewrite reportScroll_spec by exact Hwf.
  eexists. split; [reflexivity|]. cbn [count scroll].
  split; [reflexivity|]. split; [reflexivity|]. split; [reflexivity|].
  intros fuel. apply completions_idle. reflexivity.
Qed.

Lemma reportScroll_zero_witness :
  wf (mkHidEndpoint KEY_MIC_MUTE 1 0 [16; 0; 0; 0])
  /\ exists e1, reportScroll 0 (mkHidEndpoint KEY_MIC_MUTE 1 0 [16; 0; 0; 0]) = (e1, [0; 0; 0; 0]).
Proof.
  assert (H1 : wf (mkHidEndpoint KEY_MIC_MUTE 1 0 [16; 0; 0; 0])) by reflexivity.
  split; [exact H1|].
  destruct (reportScroll_zero _ H1) as (e1 & Hrs & _).
  exists e1. exact Hrs.
Defined.

(** C9. When [reportScroll] is called while a key sequence is in progress
    (counter nonzero), where a completion would have started the next
    phase, it sets the pending key and the counter to zero before it
    transmits: its one report has no key byte set, and afterwards no
    completion starts a transfer, so the remaining phases are never
    sent. *)
Theorem reportScroll_cancels_key_sequence (steps : Z) (e : HidEndpoint) :
  wf e -> count e <> 0 ->
  (exists e' next, txComplete e = (e', Some next))
  /\ exists e1 sent,
       reportScroll steps e = (e1, sent)
       /\ (e1, sent) =
            sendReport {| key := 0; count := 0; scroll := steps; txBuffer := txBuffer e |}
       /\ sent = [0; to_uchar steps; 0; 0]
       /\ key e1 = 0
       /\ count e1 = 0
       /\ forall fuel, completions fuel e1 = (e1, []).
Proof.
  intros Hwf Hc. split.
  - unfold txComplete.
    replace (truthy (count e)) with true
      by (unfold truthy; symmetry; apply negb_true_iff, Z.eqb_neq; exact Hc).
    destruct (sendReport e) as [e' next]. eauto.
  - pose proof (reportScroll_spec steps e Hwf) as Hrs.
    eexists _, _. split; [exact Hrs|]. split.
    + rewrite <- Hrs. reflexivity.
    + split; [reflexivity|]. cbn [key count].
      split; [reflexivity|]. split; [reflexivity|].
      intros fuel. apply completions_idle. reflexivity.
Qed.

Lemma reportScroll_cancels_key_sequence_witness :
  wf (mkHidEndpoint KEY_VOLUME_UP 5 0 [1; 0; 0; 0])
  /\ count (mkHidEndpoint KEY_VOLUME_UP 5 0 [1; 0; 0; 0]) <> 0
  /\ exists e1 sent,
       reportScroll 2 (mkHidEndpoint KEY_VOLUME_UP 5 0 [1; 0; 0; 0]) = (e1, sent)
       /\ count e1 = 0
       /\ completions 5 e1 = (e1, []).
Proof.
  assert (H1 : wf (mkHidEndpoint KEY_VOLUME_UP 5 0 [1; 0; 0; 0])) by reflexivity.
  assert (H2 : count (mkHidEndpoint KEY_VOLUME_UP 5 0 [1; 0; 0; 0]) <> 0) by (simpl; lia).
  split; [exact H1|]. split; [exact H2|].
  destruct (reportScroll_cancels_key_sequence 2 _ H1 H2)
    as (_ & e1 & sent & Hrs & _ & _ & _ & Hc & Hnone).
  exists e1, sent. split; [exact Hrs|]. split; [exact Hc|]. apply Hnone.
Defined.

(** The condition of [setup], for all its operator precedence, is the
    conjunction of the three comparisons. *)
Lemma setup_condition_spec s :
  setup_condition s = true
  <-> bRequest s = HID_GET_DESCRIPTOR
      /\ wValue s = HID_DESCRIPTOR_TYPE_REPORT * 256 + 0
      /\ wIndex s = 0.
Proof.
  unfold setup_condition.
  change (shl32 HID_DESCRIPTOR_TYPE_REPORT 8) with 8704.
  change (HID_DESCRIPTOR_TYPE_REPORT * 256 + 0) with 8704.
  rewrite !andb_true_iff, !Z.eqb_eq.
  destruct (Z.eqb_spec (wValue s) 8704) as [Hv | Hv].
  - change (truthy (Z.lor (b2i true) 0)) with true. tauto.
  - change (truthy (Z.lor (b2i false) 0)) with false. intuition congruence.
Qed.

Lemma startTx_memcpy dst src : startTx (memcpy dst src (length src)) (length src) = src.
Proof.
  unfold startTx, memcpy. rewrite take_app_length', firstn_all; [reflexivity|].
  rewrite firstn_all. reflexivity.
Qed.

(** C8. A control request on the HID interface is answered with the whole
    report descriptor exactly when it is the get-descriptor request for the
    report descriptor, index 0, on interface 0; every other request is
    stalled (and the control endpoint's buffer is left alone). *)
Theorem setup_descriptor_or_stall (s : SetupData) (ctrlTxBuffer : list Z) :
  let get_report_descriptor :=
    bRequest s = HID_GET_DESCRIPTOR
    /\ wValue s = HID_DESCRIPTOR_TYPE_REPORT * 256 + 0
    /\ wIndex s = 0 in
  (get_report_descriptor
   <-> setup s ctrlTxBuffer =
         (memcpy ctrlTxBuffer hidReportDescriptor (length hidReportDescriptor),
          StartTx hidReportDescriptor))
  /\ (~ get_report_descriptor <-> setup s ctrlTxBuffer = (ctrlTxBuffer, Stall)).
Proof.
  cbv zeta. rewrite <- setup_condition_spec. unfold setup.
  destruct (setup_condition s).
  - unfold sizeof_hidReportDescriptor. rewrite startTx_memcpy.
    split; split; try tauto; try discriminate.
  - split; split; try tauto; try discriminate.
Qed.

End HidFacts.

Module LoopFacts.

(** An ascending loop that reads [a[i]] at each index is a left-to-right
    pass over the array. *)
Lemma for_up_reads {St : Type} (f : nat -> Z -> St -> St) (l : list Z) :
  forall (pre : list Z) (s : St),
    for_up (length l) (length pre) (fun i s => f i (at_index (pre ++ l) i) s) s
    = fst (fold_left (fun '(s, i) v => (f i v s, S i)) l (s, length pre)).
Proof.
  induction l as [|v l IH]; intros pre s; [reflexivity|].
  cbn [length for_up fold_left].
  replace (at_index (pre ++ v :: l) (length pre)) with v
    by (unfold at_index; rewrite app_nth2, Nat.sub_diag by lia; reflexivity).
  specialize (IH (pre ++ [v]) (f (length pre) v s)).
  rewrite <- app_assoc, length_app in IH. cbn [length app] in IH.
  replace (length pre + 1)%nat with (S (length pre)) in IH by lia.
  exact IH.
Qed.

End LoopFacts.

Module GestureFacts.

Import Keys Gesture LoopFacts.

Lemma scan_fold l : forall i acc,
  fst (fold_left (fun '(s, i) v => (scan_step i v s, S i)) l (acc, i)) = scan l i acc.
Proof. induction l as [|v l IH]; intros i acc; [reflexivity|]. cbn [fold_left scan]. apply IH. Qed.

Lemma newFingerPosOf_scan touchSensor :
  newFingerPosOf touchSensor =
    let '(max, avg, maxIndex) := scan touchSensor 0 (0, 0, 0) in
    let avg := div32 avg (getChannelCount touchSensor) in
    if max >? mul32 avg 2 then maxIndex else -1.
Proof.
  unfold newFingerPosOf, getChannelCount, getChannel. rewrite Nat2Z.id.
  pose proof (for_up_reads scan_step touchSensor [] (0, 0, 0)) as H.
  cbn [length app] in H. rewrite scan_fold in H.
  unfold scan_step in H at 1. rewrite <- H. reflexivity.
Qed.

Lemma max_list_nonneg l : 0 <= max_list l.
Proof. induction l as [|v l IH]; simpl; lia. Qed.

Lemma sum_list_nonneg l : Forall (fun v => 0 <= v) l -> 0 <= sum_list l.
Proof. induction 1; simpl; lia. Qed.

(** The loop with exact sums: the running maximum, the running sum, and
    the index where the maximum was first reached. *)
Ltac pair_eq :=
  repeat match goal with |- (_, _) = (_, _) => apply f_equal2 end;
  first [reflexivity | lia].

Lemma scan_spec l : forall i m s mi,
  Forall (fun v => 0 <= v) l -> 0 <= m -> 0 <= s -> s + sum_list l <= INT_MAX ->
  exists mi',
    scan l i (m, s, mi) = (Z.max m (max_list l), s + sum_list l, mi')
    /\ (max_list l <= m -> mi' = mi)
    /\ (m < max_list l ->
        exists k, mi' = Z.of_nat (i + k) /\ (k < length l)%nat
                  /\ at_index l k = max_list l
                  /\ forall j, (j < k)%nat -> at_index l j < max_list l).
Proof.
  induction l as [|v l IH]; intros i m s mi Hpos Hm Hs Hsum.
  - exists mi. cbn. split; [pair_eq|]. split; [reflexivity|lia].
  - inversion Hpos as [|? ? Hv Hl]; subst. cbn [sum_list max_list fold_right] in *.
    fold (sum_list l) in *. fold (max_list l) in *.
    pose proof (sum_list_nonneg l Hl) as Hsl. pose proof (max_list_nonneg l) as Hml.
    cbn [scan]. unfold scan_step, add32.
    rewrite wrap32_small by (unfold is_int, INT_MIN, INT_MAX in *; lia).
    destruct (Z.gtb_spec v m) as [Hgt | Hle].
    + destruct (IH (S i) v (s + v) (Z.of_nat i) Hl ltac:(lia) ltac:(lia) ltac:(lia))
        as (mi' & Hscan & Hkeep & Hmove).
      exists mi'. split; [rewrite Hscan; pair_eq|]. split; [lia|].
      intros _. destruct (Z.le_gt_cases (max_list l) v) as [Hc | Hc].
      * exists 0%nat. rewrite (Hkeep Hc). split; [f_equal; lia|]. split; [cbn; lia|].
        split; [cbn; lia|]. intros j Hj. lia.
      * destruct (Hmove Hc) as (k & -> & Hk & Hat & Hbefore).
        exists (S k). split; [f_equal; lia|]. split; [cbn; lia|].
        split; [cbn; unfold at_index in Hat; lia|].
        intros [|j] Hj; [cbn; lia|]. specialize (Hbefore j ltac:(lia)).
        unfold at_index in *. cbn. lia.
    + destruct (IH (S i) m (s + v) mi Hl ltac:(lia) ltac:(lia) ltac:(lia))
        as (mi' & Hscan & Hkeep & Hmove).
      exists mi'. split; [rewrite Hscan; pair_eq|].
      split; [intros H; apply Hkeep; lia|].
      intros Hlt. destruct (Hmove ltac:(lia)) as (k & -> & Hk & Hat & Hbefore).
      exists (S k). split; [f_equal; lia|]. split; [cbn; lia|].
      split; [cbn; unfold at_index in Hat; lia|].
      intros [|j] Hj; [cbn; lia|]. specialize (Hbefore j ltac:(lia)).
      unfold at_index in *. cbn. lia.
Qed.

(** C1, as amended.  For a sample of N >= 1 non-negative intensities
    (whose doubled sum is an [int]), with the average taken as the
    truncated integer quotient sum / N: the tracker returns -1 (no contact)
    when the maximal intensity is at most twice that average, and the index
    of the (first) maximal channel when the maximum exceeds twice that
    average. *)
Theorem position_tracker (touchSensor : TouchSensor) :
  (1 <= length touchSensor)%nat ->
  Forall (fun v => 0 <= v) touchSensor ->
  2 * sum_list touchSensor <= INT_MAX ->
  (max_list touchSensor <= 2 * int_average touchSensor ->
     newFingerPosOf touchSensor = -1)
  /\ (2 * int_average touchSensor < max_list touchSensor ->
        exists i : nat,
          newFingerPosOf touchSensor = Z.of_nat i /\ is_max_index touchSensor i).
Proof.
  intros HN Hpos Hsum.
  pose proof (sum_list_nonneg _ Hpos) as Hs0.
  pose proof (max_list_nonneg touchSensor) as Hm0.
  destruct (scan_spec touchSensor 0 0 0 0 Hpos ltac:(lia) ltac:(lia) ltac:(lia))
    as (mi & Hscan & Hkeep & Hmove).
  rewrite newFingerPosOf_scan, Hscan. cbn zeta. unfold getChannelCount.
  rewrite Z.max_r, Z.add_0_l by lia.
  fold (int_average touchSensor).
  assert (Havg : 0 <= int_average touchSensor <= sum_list touchSensor).
  { unfold int_average. split.
    - apply Z.quot_pos; lia.
    - rewrite Z.quot_div_nonneg by lia.
      apply Z.div_le_upper_bound; [lia|]. nia. }
  unfold div32, mul32. fold (int_average touchSensor).
  rewrite (wrap32_small (int_average _)) by (unfold is_int, INT_MIN, INT_MAX in *; lia).
  rewrite wrap32_small by (unfold is_int, INT_MIN, INT_MAX in *; lia).
  rewrite (Z.mul_comm _ 2).
  split; intros Hcmp.
  - destruct (Z.gtb_spec (max_list touchSensor) (2 * int_average touchSensor)); [lia|reflexivity].
  - destruct (Z.gtb_spec (max_list touchSensor) (2 * int_average touchSensor)); [|lia].
    destruct (Hmove ltac:(lia)) as (k & -> & Hk & Hat & Hbefore).
    exists k. split; [reflexivity|]. unfold is_max_index. auto.
Qed.

Lemma position_tracker_witness :
  (1 <= length [10; 0; 0])%nat
  /\ Forall (fun v => 0 <= v) [10; 0; 0]
  /\ 2 * sum_list [10; 0; 0] <= INT_MAX
  /\ exists i : nat, newFingerPosOf [10; 0; 0] = Z.of_nat i /\ is_max_index [10; 0; 0] i.
Proof.
  assert (H1 : (1 <= length [10; 0; 0])%nat) by (simpl; lia).
  assert (H2 : Forall (fun v => 0 <= v) [10; 0; 0]) by (repeat constructor; lia).
  assert (H3 : 2 * sum_list [10; 0; 0] <= INT_MAX) by (vm_compute; discriminate).
  split; [exact H1|]. split; [exact H2|]. split; [exact H3|].
  apply (position_tracker [10; 0; 0] H1 H2 H3). vm_compute. reflexivity.
Defined.

(** C1 as stated fails: the intensities 3 and 0 have the average 3/2, so
    the maximum 3 is at most twice the average, and yet the tracker
    returns channel 0 (its integer average is 1).  And the loop starts
    its maximum at 0: were the [int] intensities -5 and -3, it would
    return channel 0, although the maximal channel is channel 1. *)
Lemma position_tracker_rounds_average :
  (exists touchSensor : TouchSensor,
      (1 <= length touchSensor)%nat
      /\ Forall (fun v => 0 <= v) touchSensor
      /\ (inject_Z (max_list touchSensor) <= 2 * spec_average touchSensor)%Q
      /\ newFingerPosOf touchSensor = 0
      /\ newFingerPosOf touchSensor <> -1)
  /\ newFingerPosOf [-5; -3] = 0
  /\ at_index [-5; -3] 0 < at_index [-5; -3] 1.
Proof.
  split; [exists [3; 0]|].
  - split; [simpl; lia|]. split; [repeat constructor; lia|]. split; [|split].
    + vm_compute. discriminate.
    + reflexivity.
    + vm_compute. discriminate.
  - split; [reflexivity | vm_compute; reflexivity].
Qed.

#[local] Arguments sub32 : simpl never.
#[local] Arguments add32 : simpl never.
#[local] Arguments mul32 : simpl never.
#[local] Arguments neg32 : simpl never.
#[local] Arguments to_schar : simpl never.

Lemma sub32_diag x : sub32 x x = 0.
Proof. unfold sub32. rewrite Z.sub_diag. reflexivity. Qed.

(** C5. On the tick a release is first seen (not touching, release not
    yet processed), [checkTap] reports the lock key (the double tap) if and
    only if the touch was a tap (0 < touchDuration < TAP_MAX_DURATION, no
    movement) and a wait was open with less than DOUBLE_TAP_WINDOW ticks
    since the last tap; a tap that does not complete a double tap reports
    nothing, sets [waitingForDoubleTap] and records the current tick as
    [lastTapTime]. *)
Theorem checkTap_on_release (d : GestureDecoder) :
  isTouching d = false -> releaseProcessed d = false ->
  let touchDuration := sub32 (currentTime d) (touchStartTime d) in
  let tap := 0 < touchDuration < TAP_MAX_DURATION /\ hasMoved d = false in
  let second :=
    waitingForDoubleTap d = true
    /\ sub32 (currentTime d) (lastTapTime d) < DOUBLE_TAP_WINDOW in
  (In (ReportKey KEY_LOCK_WORKSTATION 1) (snd (checkTap (d, []))) <-> tap /\ second)
  /\ (tap /\ second ->
        checkTap (d, []) =
          (set_waitingForDoubleTap false (set_releaseProcessed true d),
           [ReportKey KEY_LOCK_WORKSTATION 1]))
  /\ (tap /\ ~ second ->
        checkTap (d, []) =
          (set_lastTapTime (currentTime d)
             (set_waitingForDoubleTap true (set_releaseProcessed true d)),
           [])).
Proof.
  intros Ht Hr. cbv zeta.
  set (dur := sub32 (currentTime d) (touchStartTime d)).
  set (gap := sub32 (currentTime d) (lastTapTime d)).
  assert (Hrun : checkTap (d, []) =
    if (dur <? TAP_MAX_DURATION) && (dur >? 0) && negb (hasMoved d) then
      if waitingForDoubleTap d && (gap <? DOUBLE_TAP_WINDOW) then
        (set_waitingForDoubleTap false (set_releaseProcessed true d),
         [ReportKey KEY_LOCK_WORKSTATION 1])
      else
        (set_lastTapTime (currentTime d)
           (set_waitingForDoubleTap true (set_releaseProcessed true d)), [])
    else if waitingForDoubleTap d && (gap >=? DOUBLE_TAP_WINDOW) then
      (set_waitingForDoubleTap false (set_releaseProcessed true d),
       [ReportKey KEY_MIC_MUTE 1])
    else (set_releaseProcessed true d, [])).
  { unfold checkTap. rewrite Ht, Hr. cbn [negb andb].
    cbn [set_releaseProcessed currentTime touchStartTime hasMoved waitingForDoubleTap lastTapTime].
    fold dur. fold gap.
    destruct ((dur <? TAP_MAX_DURATION) && (dur >? 0) && negb (hasMoved d)).
    - destruct (waitingForDoubleTap d && (gap <? DOUBLE_TAP_WINDOW)).
      + reflexivity.
      + simpl. rewrite sub32_diag. reflexivity.
    - simpl. fold gap.
      destruct (waitingForDoubleTap d && (gap >=? DOUBLE_TAP_WINDOW)); reflexivity. }
  assert (Htap : (dur <? TAP_MAX_DURATION) && (dur >? 0) && negb (hasMoved d) = true
                 <-> (0 < dur < TAP_MAX_DURATION /\ hasMoved d = false)).
  { rewrite !andb_true_iff, negb_true_iff, Z.ltb_lt, Z.gtb_lt. tauto. }
  assert (Hsecond : waitingForDoubleTap d && (gap <? DOUBLE_TAP_WINDOW) = true
                    <-> (waitingForDoubleTap d = true /\ gap < DOUBLE_TAP_WINDOW)).
  { rewrite andb_true_iff, Z.ltb_lt. tauto. }
  rewrite Hrun.
  destruct ((dur <? TAP_MAX_DURATION) && (dur >? 0) && negb (hasMoved d)) eqn:Etap.
  - destruct (waitingForDoubleTap d && (gap <? DOUBLE_TAP_WINDOW)) eqn:Esecond.
    + split; [|split].
      * cbn [snd In]. tauto.
      * reflexivity.
      * intros [_ Hn]. contradiction Hn. tauto.
    + assert (~ (waitingForDoubleTap d = true /\ gap < DOUBLE_TAP_WINDOW))
        by (rewrite <- Hsecond; discriminate).
      split; [|split].
      * cbn [snd In]. tauto.
      * tauto.
      * reflexivity.
  - assert (~ (0 < dur < TAP_MAX_DURATION /\ hasMoved d = false))
      by (rewrite <- Htap; discriminate).
    split; [|split]; [|tauto|tauto].
    split; [|tauto].
    destruct (waitingForDoubleTap d && (gap >=? DOUBLE_TAP_WINDOW)); cbn [snd In].
    + intros [Heq | []]. discriminate Heq.
    + intros [].
Qed.


Lemma checkTap_on_release_witness :
  isTouching second_tap_released = false
  /\ releaseProcessed second_tap_released = false
  /\ checkTap (second_tap_released, []) =
       (set_waitingForDoubleTap false (set_releaseProcessed true second_tap_released),
        [ReportKey KEY_LOCK_WORKSTATION 1]).
Proof.
  assert (H1 : isTouching second_tap_released = false) by reflexivity.
  assert (H2 : releaseProcessed second_tap_released = false) by reflexivity.
  split; [exact H1|]. split; [exact H2|].
  apply (checkTap_on_release second_tap_released H1 H2).
  vm_compute. repeat split; discriminate.
Defined.

(** The expiry check of [checkTap], taken at the point where the code
    makes it (after the release handling of the same tick): an open wait
    whose window has passed is resolved into the mute key and cleared. *)
Lemma checkTap_expiry (d : GestureDecoder) :
  (isTouching d = true \/ releaseProcessed d = true) ->
  waitingForDoubleTap d = true ->
  DOUBLE_TAP_WINDOW <= sub32 (currentTime d) (lastTapTime d) ->
  checkTap (d, []) = (set_waitingForDoubleTap false d, [ReportKey KEY_MIC_MUTE 1]).
Proof.
  intros Hno Hw Hgap. unfold checkTap.
  replace (negb (isTouching d) && negb (releaseProcessed d)) with false
    by (destruct Hno as [-> | ->]; [|rewrite andb_comm]; reflexivity).
  rewrite Hw. cbn [andb].
  destruct (Z.geb_spec (sub32 (currentTime d) (lastTapTime d)) DOUBLE_TAP_WINDOW); [|lia].
  reflexivity.
Qed.

(** C4, the code at the failing input.  A tap is released on tick 2 and a
    second one on tick 22.  Entering [checkTap] on tick 22 the wait of the
    first tap is open and DOUBLE_TAP_WINDOW ticks old, yet [checkTap]
    reports nothing on that tick and leaves the wait open, now counted from
    tick 22; the first tap is never reported: up to tick 41 nothing has
    been reported, and tick 42 reports one single tap for the two taps. *)
Theorem expired_wait_restarted_by_late_tap :
  let at_21 := run volume_config tap_then_touch_at_21 (initial empty_queue, []) in
  let d := entering_checkTap volume_config no_finger (fst at_21) in
  snd at_21 = []
  /\ currentTime d = 22
  /\ waitingForDoubleTap d = true
  /\ DOUBLE_TAP_WINDOW <= sub32 (currentTime d) (lastTapTime d)
  /\ snd (checkTap (d, [])) = []
  /\ waitingForDoubleTap (fst (checkTap (d, []))) = true
  /\ lastTapTime (fst (checkTap (d, []))) = 22
  /\ snd (run volume_config (tap_then_touch_at_21 ++ repeat no_finger 20)
            (initial empty_queue, [])) = []
  /\ snd (run volume_config (tap_then_touch_at_21 ++ repeat no_finger 21)
            (initial empty_queue, [])) = [ReportKey KEY_MIC_MUTE 1].
Proof. vm_compute. repeat split; discriminate. Qed.


(** What [to_schar] keeps of a product does not depend on a wrap of a
    factor to 32 bits. *)
Lemma to_schar_mul32 a b : to_schar (mul32 a b) = to_schar (a * b).
Proof. apply to_schar_wrap32. Qed.

(** The touch tracking at the head of [checkSensor] leaves the previous
    position and the queue alone. *)
Lemma checkSensor_queue cfg touchSensor d :
  let newFingerPos := newFingerPosOf touchSensor in
  queue (checkSensor cfg touchSensor d) =
    if negb (newFingerPos =? oldFingerPos d) && (newFingerPos >=? 0) && (oldFingerPos d >=? 0)
    then
      let change := sub32 (oldFingerPos d) newFingerPos in
      if negb (change =? 0) then
        let change := if flip cfg then neg32 change else change in
        <[0%nat := to_schar (mul32 change (scale cfg))]> (queue d)
      else queue d
    else queue d.
Proof.
  cbv zeta. unfold checkSensor.
  set (d1 := if (newFingerPosOf touchSensor >=? 0) && negb (isTouching d) then _ else _).
  assert (Hold : oldFingerPos d1 = oldFingerPos d).
  { subst d1. destruct ((newFingerPosOf touchSensor >=? 0) && negb (isTouching d));
      [reflexivity|].
    destruct ((newFingerPosOf touchSensor <? 0) && isTouching d); reflexivity. }
  assert (Hq : queue d1 = queue d).
  { subst d1. destruct ((newFingerPosOf touchSensor >=? 0) && negb (isTouching d));
      [reflexivity|].
    destruct ((newFingerPosOf touchSensor <? 0) && isTouching d); reflexivity. }
  rewrite Hold.
  destruct (negb (newFingerPosOf touchSensor =? oldFingerPos d)
            && (newFingerPosOf touchSensor >=? 0) && (oldFingerPos d >=? 0));
    [|exact Hq].
  destruct (negb (sub32 (oldFingerPos d) (newFingerPosOf touchSensor) =? 0));
    [|exact Hq].
  cbn [set_oldFingerPos set_queue set_hasMoved queue]. rewrite Hq. reflexivity.
Qed.

End GestureFacts.

Module QueueFacts.

Import Keys Gesture.
Import GestureFacts.
#[local] Arguments sub32 : simpl never.
#[local] Arguments add32 : simpl never.
#[local] Arguments mul32 : simpl never.
#[local] Arguments neg32 : simpl never.
#[local] Arguments to_schar : simpl never.

Ltac cancel_case x :=
  match goal with |- context [mul32 x ?s >? 0] => destruct (mul32 x s >? 0) end;
  simpl insert; cbn [nth].

(** On the four-entry array, the three index loops of [optimizeQueue] are
    the three passes of [optimize_pass]. *)
Lemma optimize_unroll a b c d : optimize [a; b; c; d] = optimize_pass [a; b; c; d].
Proof.
  unfold optimize, optimize_pass, queueSize, tally, at_index.
  cbn [for_up fold_left nth].
  match goal with |- context [if ?p >? ?n then (?n, -1) else (?p, 1)] =>
    generalize p; generalize n; intros N P; destruct (P >? N) end;
  unfold cancel; cbn [map for_up nth];
  cancel_case a; cancel_case b; cancel_case c; cancel_case d;
  cbn [for_down absorb nth]; simpl insert; cbn [nth fst]; reflexivity.
Qed.

Ltac int_range := unfold is_int, is_schar, INT_MIN, INT_MAX, SCHAR_MIN, SCHAR_MAX in *; lia.

Lemma positiveSum_cons x q : positiveSum (x :: q) = Z.max x 0 + positiveSum q.
Proof. reflexivity. Qed.

Lemma negativeSum_cons x q : negativeSum (x :: q) = Z.max (- x) 0 + negativeSum q.
Proof. reflexivity. Qed.

Lemma sum_list_cons x q : sum_list (x :: q) = x + sum_list q.
Proof. reflexivity. Qed.

Lemma positiveSum_bounds q :
  Forall is_schar q -> 0 <= positiveSum q <= 127 * Z.of_nat (length q).
Proof.
  induction 1 as [|x q Hx Hq IH]; [cbn; lia|].
  rewrite positiveSum_cons, length_cons. int_range.
Qed.

Lemma negativeSum_bounds q :
  Forall is_schar q -> 0 <= negativeSum q <= 128 * Z.of_nat (length q).
Proof.
  induction 1 as [|x q Hx Hq IH]; [cbn; lia|].
  rewrite negativeSum_cons, length_cons. int_range.
Qed.

(** Magnitude conservation is about this identity. *)
Lemma sum_list_sides q : sum_list q = positiveSum q - negativeSum q.
Proof.
  induction q as [|x q IH]; [reflexivity|].
  rewrite sum_list_cons, positiveSum_cons, negativeSum_cons. lia.
Qed.

(** The first loop computes the two sums, without overflow. *)
Lemma tally_fold q : forall p n,
  Forall is_schar q -> 0 <= p -> 0 <= n ->
  p + 128 * Z.of_nat (length q) <= INT_MAX ->
  n + 128 * Z.of_nat (length q) <= INT_MAX ->
  fold_left tally q (p, n) = (p + positiveSum q, n + negativeSum q).
Proof.
  induction q as [|x q IH]; intros p n Hq Hp Hn Hpmax Hnmax.
  - cbn. f_equal; lia.
  - inversion Hq as [|? ? Hx Hq']; subst.
    rewrite positiveSum_cons, negativeSum_cons. rewrite length_cons in Hpmax, Hnmax.
    cbn [fold_left]. unfold tally at 2.
    assert (Hadd : add32 p x = p + x) by (apply wrap32_small; int_range).
    assert (Hsub : sub32 n x = n - x) by (apply wrap32_small; int_range).
    rewrite Hadd, Hsub.
    destruct (Z.gtb_spec x 0), (Z.ltb_spec x 0); try lia;
      rewrite IH by (try assumption; int_range); f_equal; lia.
Qed.

Lemma cancel_on_side side q :
  side = 1 \/ side = -1 -> Forall is_schar q -> Forall (on_side side) (map (cancel side) q).
Proof.
  intros Hside Hq. induction Hq as [|x q Hx Hq IH]; cbn [map]; constructor; [|exact IH].
  unfold cancel, mul32. rewrite wrap32_small by (destruct Hside; subst; int_range).
  unfold on_side. destruct (Z.gtb_spec (x * side) 0); split; try int_range; lia.
Qed.

Lemma cancel_sum side q :
  side = 1 \/ side = -1 -> Forall is_schar q ->
  sum_list (map (cancel side) q) = if side =? 1 then - negativeSum q else positiveSum q.
Proof.
  intros Hside Hq. induction Hq as [|x q Hx Hq IH].
  - destruct (side =? 1); reflexivity.
  - cbn [map]. rewrite sum_list_cons, negativeSum_cons, positiveSum_cons, IH.
    unfold cancel, mul32. rewrite wrap32_small by (destruct Hside; subst; int_range).
    destruct Hside; subst; cbn [Z.eqb Pos.eqb];
      match goal with |- context [?a >? 0] => destruct (Z.gtb_spec a 0) end; lia.
Qed.

(** The third loop: each entry moves toward zero by what it can absorb of
    the correction; what is left of the correction is what the entries
    could not absorb. *)
Lemma absorb_spec side q : forall correction,
  side = 1 \/ side = -1 -> Forall (on_side side) q -> 0 <= correction <= INT_MAX ->
  exists q' correction',
    absorb side q correction = (q', correction')
    /\ length q' = length q
    /\ Forall (on_side side) q'
    /\ sum_list q' = sum_list q + side * (correction - correction')
    /\ correction' = Z.max 0 (correction + side * sum_list q)
    /\ q' = settle side correction q.
Proof.
  intros correction Hside Hq Hc. induction Hq as [|x q Hx Hq IH].
  - exists [], correction. cbn. repeat split; try constructor; lia.
  - destruct IH as (q1 & c1 & Habs & Hlen & Hq1 & Hsum & Hc1 & Hsettle).
    cbn [absorb]. rewrite Habs.
    destruct Hx as [Hx Hsx].
    assert (Hneg : neg32 x = - x) by (apply wrap32_small; int_range).
    rewrite Hneg.
    set (v := if x <? 0 then - x else x).
    set (c := if c1 >? v then v else c1).
    assert (Hv : v = Z.abs x) by (subst v; destruct (Z.ltb_spec x 0); lia).
    assert (Hcmin : c = Z.min c1 v) by (subst c; destruct (Z.gtb_spec c1 v); lia).
    assert (Hsumq : 0 <= - side * sum_list q).
    { clear - Hq Hside. induction Hq as [|y q [_ Hy] _ IH]; [cbn; lia|].
      rewrite sum_list_cons. destruct Hside; subst; lia. }
    assert (Hmul : mul32 c side = c * side)
      by (apply wrap32_small; destruct Hside; subst; int_range).
    assert (Hadd : add32 x (c * side) = x + c * side)
      by (apply wrap32_small; destruct Hside; subst; int_range).
    assert (Hsub : sub32 c1 c = c1 - c) by (apply wrap32_small; int_range).
    rewrite Hmul, Hadd, Hsub.
    assert (Hnew : on_side side (x + c * side))
      by (unfold on_side; destruct Hside; subst; split; int_range).
    rewrite to_schar_small by apply Hnew.
    eexists _, _. split; [reflexivity|].
    rewrite !sum_list_cons, !length_cons.
    split; [lia|]. split; [constructor; assumption|].
    split; [destruct Hside; subst; lia|]. split; [destruct Hside; subst; lia|].
    cbn [settle]. fold (sum_list q). rewrite <- Hsettle. f_equal.
    destruct Hside; subst; lia.
Qed.

(** The optimisation pass on [signed char] entries: what it returns has
    the sum of what it was given, which is positiveSum - negativeSum, and
    its entries are [signed char]s of one sign. *)
Lemma optimize_pass_spec q :
  Forall is_schar q -> 128 * Z.of_nat (length q) <= INT_MAX ->
  length (optimize_pass q) = length q
  /\ Forall is_schar (optimize_pass q)
  /\ sum_list (optimize_pass q) = sum_list q
  /\ (Forall (fun x => 0 <= x) (optimize_pass q) \/ Forall (fun x => x <= 0) (optimize_pass q)).
Proof.
  intros Hq Hlen. unfold optimize_pass.
  rewrite tally_fold by (try assumption; lia). rewrite !Z.add_0_l.
  pose proof (positiveSum_bounds q Hq) as HP. pose proof (negativeSum_bounds q Hq) as HN.
  pose proof (sum_list_sides q) as Hsides.
  destruct (Z.gtb_spec (positiveSum q) (negativeSum q)) as [Hgt | Hle].
  - destruct (absorb_spec (-1) (map (cancel (-1)) q) (negativeSum q))
      as (q' & c' & Habs & Hl & Hside & Hsum & Hc' & _);
      [auto | apply cancel_on_side; auto | lia |].
    rewrite Habs. cbn [fst]. rewrite cancel_sum in Hsum, Hc' by auto. cbn [Z.eqb] in *.
    rewrite length_map in Hl.
    split; [exact Hl|]. split; [|split].
    + eapply Forall_impl; [exact Hside|]. intros x [Hx _]. exact Hx.
    + lia.
    + left. eapply Forall_impl; [exact Hside|]. intros x [_ Hx]. cbn beta in Hx. lia.
  - destruct (absorb_spec 1 (map (cancel 1) q) (positiveSum q))
      as (q' & c' & Habs & Hl & Hside & Hsum & Hc' & _);
      [auto | apply cancel_on_side; auto | lia |].
    rewrite Habs. cbn [fst]. rewrite cancel_sum in Hsum, Hc' by auto. cbn [Z.eqb Pos.eqb] in *.
    rewrite length_map in Hl.
    split; [exact Hl|]. split; [|split].
    + eapply Forall_impl; [exact Hside|]. intros x [Hx _]. exact Hx.
    + lia.
    + right. eapply Forall_impl; [exact Hside|]. intros x [_ Hx]. cbn beta in Hx. lia.
Qed.


Lemma queue_ok_four q : queue_ok q -> exists a b c d, q = [a; b; c; d].
Proof.
  intros [Hlen _]. unfold queueSize in Hlen.
  destruct q as [|a [|b [|c [|d [|]]]]]; try discriminate. eauto.
Qed.

Lemma optimize_spec q :
  queue_ok q ->
  optimize q = optimize_pass q
  /\ queue_ok (optimize q)
  /\ sum_list (optimize q) = sum_list q
  /\ (Forall (fun x => 0 <= x) (optimize q) \/ Forall (fun x => x <= 0) (optimize q)).
Proof.
  intros Hok. destruct (queue_ok_four q Hok) as (a & b & c & d & ->).
  destruct Hok as [Hlen Hq].
  rewrite optimize_unroll.
  destruct (optimize_pass_spec [a; b; c; d] Hq) as (Hl & Hs & Hsum & Hsign).
  { cbn. unfold INT_MAX. lia. }
  split; [reflexivity|]. split; [split; [rewrite Hl; exact Hlen | exact Hs]|].
  split; assumption.
Qed.

Lemma at_index_Forall (P : Z -> Prop) q i : Forall P q -> P 0 -> P (at_index q i).
Proof.
  intros Hq H0. unfold at_index. revert i.
  induction Hq as [|x q Hx Hq IH]; intros [|i]; cbn; auto.
Qed.

(** C2. One run of [optimizeQueue] on a queue of four [signed char]s
    leaves a queue of four [signed char]s in which no two entries have
    opposite signs and whose sum is the sum before the pass, which is
    positiveSum - negativeSum of the contents before the pass. *)
Theorem optimizeQueue_invariant (d : GestureDecoder) :
  queue_ok (queue d) ->
  let q' := queue (optimizeQueue d) in
  queue_ok q'
  /\ directional_purity q'
  /\ sum_list q' = sum_list (queue d)
  /\ sum_list q' = positiveSum (queue d) - negativeSum (queue d).
Proof.
  intros Hok. cbv zeta. unfold optimizeQueue. cbn [queue set_queue].
  destruct (optimize_spec (queue d) Hok) as (_ & Hok' & Hsum & Hsign).
  split; [exact Hok'|]. split; [|split; [exact Hsum|]].
  - intros i j [Hi Hj]. destruct Hsign as [Hpos | Hneg].
    + pose proof (at_index_Forall _ _ i Hpos (Z.le_refl 0)) as H. cbv beta in H. lia.
    + pose proof (at_index_Forall _ _ j Hneg (Z.le_refl 0)) as H. cbv beta in H. lia.
  - rewrite Hsum. apply sum_list_sides.
Qed.

Lemma optimizeQueue_invariant_witness :
  let d := set_queue [3; -1; 2; -5] (initial empty_queue) in
  queue_ok (queue d)
  /\ queue (optimizeQueue d) = [0; -1; 0; 0]
  /\ directional_purity (queue (optimizeQueue d))
  /\ sum_list (queue (optimizeQueue d)) = 3 + -1 + 2 + -5.
Proof.
  cbv zeta.
  assert (H : queue_ok (queue (set_queue [3; -1; 2; -5] (initial empty_queue)))).
  { split; [reflexivity|]. repeat constructor; vm_compute; discriminate. }
  split; [exact H|]. split; [reflexivity|].
  destruct (optimizeQueue_invariant _ H) as (_ & Hp & Hs & _).
  split; [exact Hp | exact Hs].
Defined.

End QueueFacts.

Module SmoothFacts.

Import Keys Gesture GestureFacts QueueFacts.

#[local] Arguments sub32 : simpl never.
#[local] Arguments add32 : simpl never.
#[local] Arguments mul32 : simpl never.
#[local] Arguments neg32 : simpl never.
#[local] Arguments to_schar : simpl never.

Lemma smooth_unfold q :
  smooth q =
    if positiveSum q >? negativeSum q
    then settle (-1) (negativeSum q) (map (fun x => Z.max x 0) q)
    else settle 1 (positiveSum q) (map (fun x => Z.min x 0) q).
Proof. reflexivity. Qed.

Lemma settle_cons side c x q :
  settle side c (x :: q) =
    x + side * Z.min (Z.abs x) (Z.max 0 (c + side * sum_list q)) :: settle side c q.
Proof. reflexivity. Qed.

Lemma map_cancel side q :
  side = 1 \/ side = -1 -> Forall is_schar q ->
  map (cancel side) q =
    if side =? 1 then map (fun x => Z.min x 0) q else map (fun x => Z.max x 0) q.
Proof.
  intros Hside Hq. induction Hq as [|x q Hx Hq IH].
  - destruct (side =? 1); reflexivity.
  - cbn [map]. rewrite IH. unfold cancel, mul32.
    rewrite wrap32_small by (destruct Hside; subst; int_range).
    destruct Hside; subst; cbn [Z.eqb Pos.eqb]; f_equal;
      match goal with |- context [?a >? 0] => destruct (Z.gtb_spec a 0) end; lia.
Qed.

(** On [signed char]s the pass of the code is the closed form. *)
Lemma optimize_pass_smooth q :
  Forall is_schar q -> 128 * Z.of_nat (length q) <= INT_MAX ->
  optimize_pass q = smooth q.
Proof.
  intros Hq Hlen. unfold optimize_pass. rewrite smooth_unfold.
  rewrite tally_fold by (try assumption; lia). rewrite !Z.add_0_l.
  pose proof (positiveSum_bounds q Hq) as HP. pose proof (negativeSum_bounds q Hq) as HN.
  destruct (positiveSum q >? negativeSum q).
  - destruct (absorb_spec (-1) (map (cancel (-1)) q) (negativeSum q))
      as (q' & c' & Habs & _ & _ & _ & _ & Hsettle);
      [auto | apply cancel_on_side; auto | lia |].
    rewrite Habs. cbn [fst]. rewrite Hsettle, map_cancel by auto. reflexivity.
  - destruct (absorb_spec 1 (map (cancel 1) q) (positiveSum q))
      as (q' & c' & Habs & _ & _ & _ & _ & Hsettle);
      [auto | apply cancel_on_side; auto | lia |].
    rewrite Habs. cbn [fst]. rewrite Hsettle, map_cancel by auto. reflexivity.
Qed.

Lemma sum_list_opp q : sum_list (map Z.opp q) = - sum_list q.
Proof. induction q as [|x q IH]; [reflexivity|]. cbn [map]. rewrite !sum_list_cons. lia. Qed.

Lemma sum_list_mul k q : sum_list (map (Z.mul k) q) = k * sum_list q.
Proof. induction q as [|x q IH]; [cbn; lia|]. cbn [map]. rewrite !sum_list_cons. lia. Qed.

Lemma positiveSum_opp q : positiveSum (map Z.opp q) = negativeSum q.
Proof.
  induction q as [|x q IH]; [reflexivity|].
  cbn [map]. rewrite positiveSum_cons, negativeSum_cons. lia.
Qed.

Lemma negativeSum_opp q : negativeSum (map Z.opp q) = positiveSum q.
Proof.
  induction q as [|x q IH]; [reflexivity|].
  cbn [map]. rewrite positiveSum_cons, negativeSum_cons. lia.
Qed.

Lemma positiveSum_mul k q : 0 <= k -> positiveSum (map (Z.mul k) q) = k * positiveSum q.
Proof.
  intros Hk. induction q as [|x q IH]; [cbn; lia|].
  cbn [map]. rewrite !positiveSum_cons, IH. nia.
Qed.

Lemma negativeSum_mul k q : 0 <= k -> negativeSum (map (Z.mul k) q) = k * negativeSum q.
Proof.
  intros Hk. induction q as [|x q IH]; [cbn; lia|].
  cbn [map]. rewrite !negativeSum_cons, IH. nia.
Qed.

Lemma sum_positive_part q : sum_list (map (fun x => Z.max x 0) q) = positiveSum q.
Proof. induction q as [|x q IH]; [reflexivity|]. cbn [map]. rewrite sum_list_cons, positiveSum_cons. lia. Qed.

Lemma sum_negative_part q : sum_list (map (fun x => Z.min x 0) q) = - negativeSum q.
Proof. induction q as [|x q IH]; [reflexivity|]. cbn [map]. rewrite sum_list_cons, negativeSum_cons. lia. Qed.

(** Settling commutes with negation ... *)
Lemma settle_opp side c q :
  settle (- side) c (map Z.opp q) = map Z.opp (settle side c q).
Proof.
  induction q as [|x q IH]; [reflexivity|].
  cbn [map]. rewrite !settle_cons, IH, sum_list_opp. cbn [map]. f_equal.
  rewrite Z.abs_opp. replace (c + - side * - sum_list q) with (c + side * sum_list q) by lia.
  lia.
Qed.

(** ... and with a positive factor. *)
Lemma settle_mul k side c q :
  0 <= k -> settle side (k * c) (map (Z.mul k) q) = map (Z.mul k) (settle side c q).
Proof.
  intros Hk. induction q as [|x q IH]; [reflexivity|].
  cbn [map]. rewrite !settle_cons, IH, sum_list_mul. cbn [map]. f_equal.
  rewrite Z.abs_mul, (Z.abs_eq k) by lia.
  replace (k * c + side * (k * sum_list q)) with (k * (c + side * sum_list q)) by lia.
  replace (Z.max 0 (k * (c + side * sum_list q)))
    with (Z.max (k * 0) (k * (c + side * sum_list q))) by (f_equal; lia).
  rewrite Z.mul_max_distr_nonneg_l, Z.mul_min_distr_nonneg_l by lia.
  lia.
Qed.

(** A correction as large as what the entries hold zeroes them all. *)
Lemma settle_exhaust side c q :
  side = 1 \/ side = -1 -> Forall (fun x => x * side <= 0) q -> - side * sum_list q <= c ->
  settle side c q = map (fun _ => 0) q.
Proof.
  intros Hside Hq. induction Hq as [|x q Hx Hq IH]; intros Hc; [reflexivity|].
  rewrite sum_list_cons in Hc.
  assert (Hrest : 0 <= - side * sum_list q).
  { clear - Hq Hside. induction Hq as [|y q Hy _ IH]; [cbn; lia|].
    rewrite sum_list_cons. destruct Hside; subst; lia. }
  rewrite settle_cons. cbn [map]. rewrite IH by (destruct Hside; subst; lia).
  f_equal. destruct Hside; subst; lia.
Qed.

Lemma smooth_opp q : smooth (map Z.opp q) = map Z.opp (smooth q).
Proof.
  rewrite !smooth_unfold, positiveSum_opp, negativeSum_opp.
  assert (Hmax : map (fun x => Z.max x 0) (map Z.opp q) = map Z.opp (map (fun x => Z.min x 0) q)).
  { rewrite !map_map. apply map_ext. intros x. lia. }
  assert (Hmin : map (fun x => Z.min x 0) (map Z.opp q) = map Z.opp (map (fun x => Z.max x 0) q)).
  { rewrite !map_map. apply map_ext. intros x. lia. }
  rewrite Hmax, Hmin.
  destruct (Z.gtb_spec (negativeSum q) (positiveSum q)) as [Hlt | Hle];
  destruct (Z.gtb_spec (positiveSum q) (negativeSum q)) as [Hgt | Hge]; try lia.
  - change (-1) with (- (1)). apply settle_opp.
  - rewrite <- (settle_opp (-1)). reflexivity.
  - rewrite !settle_exhaust; auto.
    + rewrite !map_map. reflexivity.
    + apply List.Forall_forall. intros x Hin. apply in_map_iff in Hin as (y & <- & _). lia.
    + rewrite sum_negative_part. lia.
    + apply List.Forall_forall. intros x Hin. apply in_map_iff in Hin as (y & <- & Hy).
      apply in_map_iff in Hy as (z & <- & _). lia.
    + rewrite sum_list_opp, sum_positive_part. lia.
Qed.


Lemma smooth_mul k q : 0 < k -> smooth (map (Z.mul k) q) = map (Z.mul k) (smooth q).
Proof.
  intros Hk. rewrite !smooth_unfold, positiveSum_mul, negativeSum_mul by lia.
  assert (Hmax : map (fun x => Z.max x 0) (map (Z.mul k) q)
                 = map (Z.mul k) (map (fun x => Z.max x 0) q)).
  { rewrite !map_map. apply map_ext. intros x. nia. }
  assert (Hmin : map (fun x => Z.min x 0) (map (Z.mul k) q)
                 = map (Z.mul k) (map (fun x => Z.min x 0) q)).
  { rewrite !map_map. apply map_ext. intros x. nia. }
  rewrite Hmax, Hmin, !settle_mul by lia.
  destruct (Z.gtb_spec (positiveSum q) (negativeSum q));
    destruct (Z.gtb_spec (k * positiveSum q) (k * negativeSum q)); try nia; reflexivity.
Qed.

(** The pass is linear: it commutes with every nonzero factor. *)
Lemma smooth_times m q : m <> 0 -> smooth (map (Z.mul m) q) = map (Z.mul m) (smooth q).
Proof.
  intros Hm. destruct (Z.lt_ge_cases 0 m) as [Hpos | Hneg]; [apply smooth_mul; exact Hpos|].
  assert (Hsplit : forall l, map (Z.mul m) l = map Z.opp (map (Z.mul (- m)) l)).
  { intros l. rewrite map_map. apply map_ext. intros x. lia. }
  rewrite !Hsplit, smooth_opp, smooth_mul by lia. reflexivity.
Qed.

(** No entry grows in magnitude. *)
Lemma settle_bound B side c q :
  side = 1 \/ side = -1 ->
  Forall (fun x => x * side <= 0 /\ Z.abs x <= B) q ->
  Forall (fun y => Z.abs y <= B) (settle side c q).
Proof.
  intros Hside Hq. induction Hq as [|x q [Hx Hb] Hq IH]; [constructor|].
  rewrite settle_cons. constructor; [|exact IH].
  destruct Hside; subst; lia.
Qed.

Lemma smooth_bound B q :
  Forall (fun x => Z.abs x <= B) q -> Forall (fun y => Z.abs y <= B) (smooth q).
Proof.
  intros Hq. rewrite smooth_unfold.
  destruct (positiveSum q >? negativeSum q); apply settle_bound; auto;
    apply List.Forall_forall; intros x Hin; apply in_map_iff in Hin as (y & <- & Hy);
    rewrite List.Forall_forall in Hq; specialize (Hq y Hy); cbv beta in Hq; lia.
Qed.

Lemma queue_within_schar m q : queue_within m q -> queue_ok (map (Z.mul m) q).
Proof.
  intros [Hlen Hq]. split; [rewrite length_map; exact Hlen|].
  apply List.Forall_forall. intros x Hin. apply in_map_iff in Hin as (y & <- & Hy).
  rewrite List.Forall_forall in Hq. specialize (Hq y Hy). cbv beta in Hq. int_range.
Qed.

Lemma queue_within_1 q : queue_within 1 q -> queue_ok q.
Proof.
  intros H. apply queue_within_schar in H.
  replace (map (Z.mul 1) q) with q in H; [exact H|].
  rewrite <- (map_id q) at 1. apply map_ext. intros x. lia.
Qed.

Lemma optimize_smooth q : queue_ok q -> optimize q = smooth q.
Proof.
  intros Hok. destruct (optimize_spec q Hok) as (-> & _).
  destruct Hok as [Hlen Hq]. apply optimize_pass_smooth; [exact Hq|].
  rewrite Hlen. unfold queueSize, INT_MAX. lia.
Qed.

(** [optimizeQueue] on a queue multiplied by [m] is [m] times what it is
    on the queue, as long as both queues hold values within -127..127. *)
Lemma optimize_times m q :
  m <> 0 -> queue_within 1 q -> queue_within m q ->
  optimize (map (Z.mul m) q) = map (Z.mul m) (optimize q)
  /\ queue_within 1 (optimize q)
  /\ queue_within m (optimize q).
Proof.
  intros Hm H1 Hq.
  pose proof (queue_within_1 q H1) as Hok.
  pose proof (queue_within_schar m q Hq) as Hokm.
  rewrite (optimize_smooth _ Hokm), (optimize_smooth _ Hok), smooth_times by exact Hm.
  split; [reflexivity|].
  destruct (optimize_spec q Hok) as (_ & [Hlen _] & _).
  rewrite (optimize_smooth _ Hok) in Hlen.
  assert (Habs : forall B, (forall x, In x q -> Z.abs x <= B) ->
                           forall y, In y (smooth q) -> Z.abs y <= B).
  { intros B HB. apply List.Forall_forall, smooth_bound, List.Forall_forall. exact HB. }
  destruct H1 as [_ H1]. destruct Hq as [_ Hq].
  rewrite List.Forall_forall in H1, Hq.
  split; (split; [exact Hlen|]); apply List.Forall_forall; intros y Hy.
  - specialize (Habs SCHAR_MAX). cbv beta.
    assert (Z.abs y <= SCHAR_MAX); [|lia].
    apply Habs; [|exact Hy]. intros x Hx. specialize (H1 x Hx). cbv beta in H1. lia.
  - cbv beta.
    assert (Hy' : In (m * y) (smooth (map (Z.mul m) q)))
      by (rewrite smooth_times by exact Hm; apply in_map; exact Hy).
    pose proof (smooth_bound SCHAR_MAX (map (Z.mul m) q)) as Hb.
    rewrite !List.Forall_forall in Hb.
    assert (Z.abs (m * y) <= SCHAR_MAX); [|lia].
    apply Hb; [|exact Hy'].
    intros x Hx. apply in_map_iff in Hx as (z & <- & Hz).
    specialize (Hq z Hz). cbv beta in Hq. lia.
Qed.

End SmoothFacts.

Module SlideFacts.

Import Keys Gesture GestureFacts QueueFacts SmoothFacts.

#[local] Arguments sub32 : simpl never.
#[local] Arguments add32 : simpl never.
#[local] Arguments mul32 : simpl never.
#[local] Arguments neg32 : simpl never.
#[local] Arguments to_schar : simpl never.
#[local] Arguments optimize : simpl never.
#[local] Arguments newFingerPosOf : simpl never.

Ltac split_comparisons :=
  repeat (simpl;
          match goal with
          | |- context [?a <? ?b] => destruct (a <? b)
          | |- context [?a >? ?b] => destruct (a >? b)
          | |- context [?a >=? ?b] => destruct (a >=? b)
          end).

(** The index that the sensor loop returns is the one it started with or
    the index of a channel. *)
Lemma scan_index l : forall i m s mi,
  snd (scan l i (m, s, mi)) = mi
  \/ Z.of_nat i <= snd (scan l i (m, s, mi)) < Z.of_nat (i + length l).
Proof.
  induction l as [|v l IH]; intros i m s mi; [left; reflexivity|].
  cbn [scan]. unfold scan_step.
  destruct (v >? m).
  - destruct (IH (S i) v (add32 s v) (Z.of_nat i)) as [-> | H]; right; cbn [length]; lia.
  - destruct (IH (S i) m (add32 s v) mi) as [-> | H]; [left; reflexivity|].
    right. cbn [length]. lia.
Qed.

Lemma newFingerPosOf_below touchSensor :
  position_below (Z.of_nat (length touchSensor)) (newFingerPosOf touchSensor).
Proof.
  unfold position_below. rewrite newFingerPosOf_scan.
  destruct touchSensor as [|v l]; [left; reflexivity|].
  pose proof (scan_index (v :: l) 0 0 0 0) as H.
  destruct (scan (v :: l) 0 (0, 0, 0)) as [[max avg] maxIndex]. cbn [snd] in H.
  cbv zeta. destruct (max >? _); [|left; reflexivity].
  right. cbn [length] in *. lia.
Qed.

Lemma position_below_le n n' pos : n <= n' -> position_below n pos -> position_below n' pos.
Proof. unfold position_below. lia. Qed.

(** Everything but the queue, after [checkSensor], is the same whatever the
    configuration and the queue. *)
Lemma checkSensor_other cfg cfg' touchSensor q' q0 d :
  set_queue q0 (checkSensor cfg touchSensor (set_queue q' d))
  = set_queue q0 (checkSensor cfg' touchSensor d).
Proof.
  destruct d. unfold checkSensor. simpl.
  destruct (newFingerPosOf touchSensor >=? 0); simpl;
  destruct isTouching0; simpl;
  destruct (newFingerPosOf touchSensor <? 0); simpl;
  destruct (newFingerPosOf touchSensor =? oldFingerPos0); simpl;
  destruct (oldFingerPos0 >=? 0); simpl;
  destruct (sub32 oldFingerPos0 (newFingerPosOf touchSensor) =? 0); simpl;
  reflexivity.
Qed.

Lemma set_queue_queue d : set_queue (queue d) d = d.
Proof. destruct d; reflexivity. Qed.

(** [checkTap] neither reads nor writes the queue. *)
Lemma checkTap_queue q d (log : list Call) :
  checkTap (set_queue q d, log)
  = (set_queue q (fst (checkTap (d, log))), snd (checkTap (d, log))).
Proof.
  destruct d. unfold checkTap. simpl.
  destruct isTouching0, releaseProcessed0, hasMoved0, waitingForDoubleTap0;
    split_comparisons; reflexivity.
Qed.

(** The calls of [checkTap] are appended to the record, and they are tap
    reports: no change of orientation or scale touches them. *)
Lemma checkTap_calls d (log : list Call) :
  checkTap (d, log) = (fst (checkTap (d, [])), log ++ snd (checkTap (d, [])))
  /\ forall m, map (times m) (snd (checkTap (d, []))) = snd (checkTap (d, [])).
Proof.
  destruct d. unfold checkTap. simpl.
  destruct isTouching0, releaseProcessed0, hasMoved0, waitingForDoubleTap0;
    split_comparisons; simpl; rewrite ?app_nil_r;
    (split; [reflexivity|]); intros m; unfold times; destruct (m <? 0); reflexivity.
Qed.

Lemma checkTap_oldFingerPos d (log : list Call) :
  oldFingerPos (fst (checkTap (d, log))) = oldFingerPos d.
Proof.
  destruct d. unfold checkTap. simpl.
  destruct isTouching0, releaseProcessed0, hasMoved0, waitingForDoubleTap0;
    split_comparisons; reflexivity.
Qed.

(** [checkQueue] on the four-entry queue: the calls for the oldest slot,
    then the shift. *)
Lemma checkQueue_spec cfg d (log : list Call) a b c e :
  queue d = [a; b; c; e] ->
  checkQueue cfg (d, log) = (set_queue [0; a; b; c] d, log ++ slide_calls (function cfg) e).
Proof.
  intros Hq. unfold checkQueue, slide_calls. rewrite Hq.
  change (at_index [a; b; c; e] (queueSize - 1)) with e.
  f_equal.
  destruct (function cfg); cbn [reportKey reportScroll Recorder];
    destruct (e >? 0), (e <? 0); cbn [app]; rewrite ?app_nil_r, <- ?app_assoc; reflexivity.
Qed.


Lemma checkTap_keeps_queue d (log : list Call) :
  queue (fst (checkTap (d, log))) = queue d.
Proof.
  pose proof (checkTap_queue (queue d) d log) as H. rewrite set_queue_queue in H.
  rewrite H. reflexivity.
Qed.

Lemma checkSensor_queue_ok cfg touchSensor d :
  queue_ok (queue d) -> queue_ok (queue (checkSensor cfg touchSensor d)).
Proof.
  intros Hok. rewrite checkSensor_queue. cbv zeta.
  destruct (negb _ && _ && _); [|exact Hok].
  destruct (negb _); [|exact Hok].
  destruct (queue_ok_four _ Hok) as (a & b & c & e & Hq4). rewrite Hq4 in *.
  destruct Hok as [_ Hq]. split; [reflexivity|].
  inversion Hq as [|? ? Ha Hrest]. cbn.
  constructor; [apply to_schar_range | exact Hrest].
Qed.

(** Every tick leaves four [signed char]s in the queue. *)
Lemma onTimer_queue_ok cfg touchSensor d (log : list Call) :
  queue_ok (queue d) -> queue_ok (queue (fst (onTimer cfg touchSensor (d, log)))).
Proof.
  intros Hok. unfold onTimer.
  set (d1 := checkSensor cfg touchSensor _).
  assert (Hok1 : queue_ok (queue d1)) by (apply checkSensor_queue_ok; exact Hok).
  pose proof (checkTap_keeps_queue d1 log) as Hkeep.
  destruct (checkTap (d1, log)) as [d2 log2]. cbn [fst] in Hkeep.
  unfold optimizeQueue. rewrite Hkeep.
  destruct (optimize_spec (queue d1) Hok1) as (_ & Hok2 & _).
  destruct (queue_ok_four _ Hok2) as (a & b & c & e & Hq4).
  rewrite (checkQueue_spec cfg _ log2 a b c e) by exact Hq4.
  cbn [fst queue set_queue]. rewrite Hq4 in Hok2. destruct Hok2 as [_ Hq].
  split; [reflexivity|].
  inversion Hq as [|? ? Ha Hq1]; subst. inversion Hq1 as [|? ? Hb Hq2]; subst.
  inversion Hq2 as [|? ? Hc Hq3]; subst.
  constructor; [unfold is_schar, SCHAR_MIN, SCHAR_MAX; lia|].
  repeat (constructor; [assumption|]). constructor.
Qed.

(** C10. The queue holds [signed char]s: a tick that starts with four of
    them ends with four of them.  When the finger moves from one channel
    to another, the value stored in slot 0 is the product change x scale
    (change negated first if flip is set) reduced to a signed 8-bit value:
    it lies in -128..127 and differs from the product by a multiple of
    2^8, and it is the product itself only when the product is in that
    range.  Nothing saturates and nothing fails. *)
Theorem stored_delta_is_truncated (cfg : DeviceConfiguration) (touchSensor : TouchSensor)
    (d : GestureDecoder) :
  queue_ok (queue d) ->
  0 <= oldFingerPos d <= INT_MAX ->
  0 <= newFingerPosOf touchSensor <= INT_MAX ->
  newFingerPosOf touchSensor <> oldFingerPos d ->
  let change := oldFingerPos d - newFingerPosOf touchSensor in
  let change := if flip cfg then - change else change in
  let stored := at_index (queue (checkSensor cfg touchSensor d)) 0 in
  stored = to_schar (change * scale cfg)
  /\ SCHAR_MIN <= stored <= SCHAR_MAX
  /\ (stored - change * scale cfg) mod 2 ^ 8 = 0
  /\ (stored = change * scale cfg <-> SCHAR_MIN <= change * scale cfg <= SCHAR_MAX)
  /\ queue_ok (queue (checkSensor cfg touchSensor d))
  /\ queue_ok (queue (fst (onTimer cfg touchSensor (d, ([] : list Call))))).
Proof.
  intros Hok Hold Hnew Hne. cbv zeta.
  set (change := if flip cfg then _ else _).
  assert (Hstored : at_index (queue (checkSensor cfg touchSensor d)) 0
                    = to_schar (change * scale cfg)).
  { rewrite checkSensor_queue. cbv zeta.
    replace (negb (newFingerPosOf touchSensor =? oldFingerPos d)) with true
      by (symmetry; apply negb_true_iff, Z.eqb_neq; exact Hne).
    replace (newFingerPosOf touchSensor >=? 0) with true
      by (symmetry; apply Z.geb_le; lia).
    replace (oldFingerPos d >=? 0) with true by (symmetry; apply Z.geb_le; lia).
    cbn [andb].
    assert (Hsub : sub32 (oldFingerPos d) (newFingerPosOf touchSensor)
                   = oldFingerPos d - newFingerPosOf touchSensor).
    { unfold sub32. apply wrap32_small. unfold is_int, INT_MIN, INT_MAX in *. lia. }
    rewrite Hsub.
    replace (negb (oldFingerPos d - newFingerPosOf touchSensor =? 0)) with true
      by (symmetry; apply negb_true_iff, Z.eqb_neq; lia).
    assert (Hneg : neg32 (oldFingerPos d - newFingerPosOf touchSensor)
                   = - (oldFingerPos d - newFingerPosOf touchSensor)).
    { unfold neg32. apply wrap32_small. unfold is_int, INT_MIN, INT_MAX in *. lia. }
    rewrite Hneg, to_schar_mul32. fold change.
    destruct (queue_ok_four _ Hok) as (a & b & c & e & Hq4). rewrite Hq4. reflexivity. }
  rewrite Hstored.
  pose proof (to_schar_range (change * scale cfg)) as Hrange.
  split; [reflexivity|]. split; [exact Hrange|].
  split; [apply to_schar_congr|].
  split; [|split].
  - split; [intros <-; exact Hrange | intros Hfit; apply to_schar_small; exact Hfit].
  - apply checkSensor_queue_ok. exact Hok.
  - apply onTimer_queue_ok. exact Hok.
Qed.

(** A finger moving from channel 1 to channel 0 at scale 200: the product
    200 is stored as -56. *)
Lemma stored_delta_is_truncated_witness :
  let cfg := {| flip := false; scale := 200; function := DEVICE_FUNCTION_VOLUME |} in
  let d := set_oldFingerPos 1 (initial empty_queue) in
  queue_ok (queue d)
  /\ 0 <= oldFingerPos d <= INT_MAX
  /\ 0 <= newFingerPosOf finger_on_0 <= INT_MAX
  /\ newFingerPosOf finger_on_0 <> oldFingerPos d
  /\ at_index (queue (checkSensor cfg finger_on_0 d)) 0 = -56
  /\ (oldFingerPos d - newFingerPosOf finger_on_0) * scale cfg = 200.
Proof.
  cbv zeta.
  set (cfg := {| flip := false; scale := 200; function := DEVICE_FUNCTION_VOLUME |}).
  set (d := set_oldFingerPos 1 (initial empty_queue)).
  assert (H1 : queue_ok (queue d))
    by (split; [reflexivity | repeat constructor; vm_compute; discriminate]).
  assert (H2 : 0 <= oldFingerPos d <= INT_MAX) by (vm_compute; split; discriminate).
  assert (H3 : 0 <= newFingerPosOf finger_on_0 <= INT_MAX)
    by (vm_compute; split; discriminate).
  assert (H4 : newFingerPosOf finger_on_0 <> oldFingerPos d) by (vm_compute; discriminate).
  split; [exact H1|]. split; [exact H2|]. split; [exact H3|]. split; [exact H4|].
  destruct (stored_delta_is_truncated cfg finger_on_0 d H1 H2 H3 H4) as (Hs & _).
  split; [rewrite Hs; reflexivity | reflexivity].
Defined.

(** The insertion.  When the positions are channels below [N] and
    [(N - 1) * scale] is within the [signed char] range, the value stored
    in slot 0 is the raw delta times the configuration's factor, exactly. *)
Lemma checkSensor_insert cfg touchSensor d N :
  1 <= scale cfg -> (N - 1) * scale cfg <= SCHAR_MAX ->
  position_below N (oldFingerPos d) ->
  position_below N (newFingerPosOf touchSensor) ->
  let newFingerPos := newFingerPosOf touchSensor in
  queue (checkSensor cfg touchSensor d) =
    if negb (newFingerPos =? oldFingerPos d) && (newFingerPos >=? 0) && (oldFingerPos d >=? 0)
    then <[0%nat := factor cfg * (oldFingerPos d - newFingerPos)]> (queue d)
    else queue d.
Proof.
  intros Hscale Hfit Hold Hnew. cbv zeta. rewrite checkSensor_queue. cbv zeta.
  destruct (Z.eqb_spec (newFingerPosOf touchSensor) (oldFingerPos d)) as [Heq | Hne];
    [reflexivity|].
  destruct (Z.geb_spec (newFingerPosOf touchSensor) 0) as [Hn0 | Hn0]; [|reflexivity].
  destruct (Z.geb_spec (oldFingerPos d) 0) as [Ho0 | Ho0]; [|reflexivity].
  cbn [negb andb].
  unfold SCHAR_MAX in *.
  assert (HN : N - 1 <= 127) by nia.
  unfold position_below in Hold, Hnew.
  assert (Hsub : sub32 (oldFingerPos d) (newFingerPosOf touchSensor)
                 = oldFingerPos d - newFingerPosOf touchSensor)
    by (apply wrap32_small; int_range).
  rewrite Hsub.
  replace (oldFingerPos d - newFingerPosOf touchSensor =? 0) with false
    by (symmetry; apply Z.eqb_neq; lia).
  cbn [negb]. f_equal.
  set (change := oldFingerPos d - newFingerPosOf touchSensor) in *.
  assert (Hchange : - (N - 1) <= change <= N - 1) by (subst change; lia).
  assert (Hneg : neg32 change = - change) by (apply wrap32_small; int_range).
  assert (Hprod : - 127 <= change * scale cfg <= 127) by nia.
  unfold factor. destruct (flip cfg).
  - rewrite Hneg, to_schar_mul32, to_schar_small by int_range. lia.
  - rewrite to_schar_mul32, to_schar_small by int_range. lia.
Qed.

(** The calls for a slot value multiplied by [m]. *)
Lemma slide_calls_times m f x :
  m <> 0 -> - SCHAR_MAX <= x <= SCHAR_MAX -> - SCHAR_MAX <= m * x <= SCHAR_MAX ->
  slide_calls f (m * x) = map (times m) (slide_calls f x).
Proof.
  intros Hm Hx Hmx.
  assert (Hnx : neg32 x = - x) by (apply wrap32_small; int_range).
  assert (Hnmx : neg32 (m * x) = - (m * x)) by (apply wrap32_small; int_range).
  unfold slide_calls, times. rewrite Hnx, Hnmx.
  destruct f;
    destruct (Z.ltb_spec m 0);
    destruct (Z.gtb_spec x 0); destruct (Z.ltb_spec x 0); try lia;
    destruct (Z.gtb_spec (m * x) 0); destruct (Z.ltb_spec (m * x) 0); try nia;
    cbn [app map mirror magnified is_slide_key opposite_key Z.eqb orb
         KEY_VOLUME_UP KEY_VOLUME_DOWN KEY_BRIGHTNESS_UP KEY_BRIGHTNESS_DOWN Pos.eqb];
    repeat (f_equal; try lia).
Qed.

Lemma queue_within_four m q : queue_within m q -> exists a b c e, q = [a; b; c; e].
Proof.
  intros [Hlen _]. unfold queueSize in Hlen.
  destruct q as [|a [|b [|c [|e [|]]]]]; try discriminate. eauto.
Qed.

Lemma queue_within_insert m q x :
  queue_within m q -> - SCHAR_MAX <= m * x <= SCHAR_MAX -> queue_within m (<[0%nat := x]> q).
Proof.
  intros Hq Hx. destruct (queue_within_four m q Hq) as (a & b & c & e & ->).
  destruct Hq as [Hlen Hq]. split; [reflexivity|].
  inversion Hq; subst. constructor; assumption.
Qed.

Lemma queue_within_shift m a b c e :
  queue_within m [a; b; c; e] -> queue_within m [0; a; b; c].
Proof.
  intros [_ Hq]. split; [reflexivity|].
  inversion Hq as [|? ? Ha Hq1]; subst. inversion Hq1 as [|? ? Hb Hq2]; subst.
  inversion Hq2 as [|? ? Hc Hq3]; subst.
  constructor; [cbv beta; unfold SCHAR_MAX; lia|].
  repeat (constructor; [assumption|]). constructor.
Qed.

(** One tick under two configurations whose factors are in the ratio [m],
    from decoders that differ only by their queues, one [m] times the
    other: the decoders stay so related and the calls of the tick are the
    [times m] of one another. *)
Lemma onTimer_times cfgA cfgB m N touchSensor d :
  m <> 0 ->
  function cfgB = function cfgA ->
  factor cfgB = m * factor cfgA ->
  1 <= scale cfgA -> (N - 1) * scale cfgA <= SCHAR_MAX ->
  1 <= scale cfgB -> (N - 1) * scale cfgB <= SCHAR_MAX ->
  Z.of_nat (length touchSensor) <= N ->
  queue_within 1 (queue d) -> queue_within m (queue d) ->
  position_below N (oldFingerPos d) ->
  let d' := fst (onTimer cfgA touchSensor (d, [])) in
  onTimer cfgB touchSensor (set_queue (map (Z.mul m) (queue d)) d, [])
  = (set_queue (map (Z.mul m) (queue d')) d',
     map (times m) (snd (onTimer cfgA touchSensor (d, []))))
  /\ queue_within 1 (queue d')
  /\ queue_within m (queue d')
  /\ position_below N (oldFingerPos d').
Proof.
  intros Hm Hfun Hfac HsA HfitA HsB HfitB Hlen H1 Hmq Hold. cbv zeta.
  unfold onTimer.
  set (dt := set_currentTime (add32 (currentTime d) 1) d).
  assert (Hdt : set_currentTime (add32 (currentTime (set_queue (map (Z.mul m) (queue d)) d)) 1)
                  (set_queue (map (Z.mul m) (queue d)) d)
                = set_queue (map (Z.mul m) (queue dt)) dt) by reflexivity.
  rewrite Hdt. clear Hdt.
  assert (Hqdt : queue dt = queue d) by reflexivity.
  assert (Hodt : oldFingerPos dt = oldFingerPos d) by reflexivity.
  rewrite <- Hqdt in H1, Hmq. rewrite <- Hodt in Hold. clearbody dt. clear Hqdt Hodt d.
  pose proof (position_below_le _ N _ Hlen (newFingerPosOf_below touchSensor)) as Hnew.
  (* checkSensor *)
  set (dA := checkSensor cfgA touchSensor dt).
  set (dB := checkSensor cfgB touchSensor (set_queue (map (Z.mul m) (queue dt)) dt)).
  assert (HqA := checkSensor_insert cfgA touchSensor dt N HsA HfitA Hold Hnew).
  assert (HqB := checkSensor_insert cfgB touchSensor
                   (set_queue (map (Z.mul m) (queue dt)) dt) N HsB HfitB Hold Hnew).
  cbv zeta in HqA, HqB. fold dA in HqA. fold dB in HqB.
  change (oldFingerPos (set_queue (map (Z.mul m) (queue dt)) dt)) with (oldFingerPos dt) in HqB.
  change (queue (set_queue (map (Z.mul m) (queue dt)) dt)) with (map (Z.mul m) (queue dt)) in HqB.
  assert (HoA : oldFingerPos dA = newFingerPosOf touchSensor) by reflexivity.
  assert (Hrel : dB = set_queue (map (Z.mul m) (queue dA)) dA
                 /\ queue_within 1 (queue dA) /\ queue_within m (queue dA)).
  { assert (HdB : dB = set_queue (queue dB) dA).
    { rewrite <- (set_queue_queue dB) at 1. apply checkSensor_other. }
    rewrite HdB at 1. rewrite HqB, HqA.
    destruct (negb (newFingerPosOf touchSensor =? oldFingerPos dt)
              && (newFingerPosOf touchSensor >=? 0) && (oldFingerPos dt >=? 0)) eqn:Hmoved;
      [|auto].
    apply andb_prop in Hmoved as [Hmoved Ho0]. apply andb_prop in Hmoved as [_ Hn0].
    apply Z.geb_le in Ho0, Hn0. unfold position_below in Hold, Hnew.
    set (change := oldFingerPos dt - newFingerPosOf touchSensor).
    assert (Hchange : - (N - 1) <= change <= N - 1) by (subst change; lia).
    assert (HpA : - SCHAR_MAX <= factor cfgA * change <= SCHAR_MAX)
      by (unfold factor; destruct (flip cfgA); nia).
    assert (HpB : - SCHAR_MAX <= factor cfgB * change <= SCHAR_MAX)
      by (unfold factor; destruct (flip cfgB); nia).
    destruct (queue_within_four _ _ H1) as (a & b & c & e & Hq4). rewrite Hq4 in *.
    split; [|split].
    - f_equal. cbn. f_equal. rewrite Hfac. lia.
    - apply (queue_within_insert 1 [a; b; c; e]); [exact H1 | lia].
    - apply (queue_within_insert m [a; b; c; e]); [exact Hmq|]. rewrite Hfac in HpB. lia. }
  destruct Hrel as (HdB & H1A & HmA). rewrite HdB. clearbody dA. clear HdB dB HqA HqB H1 Hmq Hold dt.
  (* checkTap *)
  rewrite checkTap_queue.
  destruct (checkTap_calls dA []) as (_ & Htaps).
  assert (HqT : queue (fst (checkTap (dA, []))) = queue dA).
  { pose proof (checkTap_queue (queue dA) dA []) as H. rewrite set_queue_queue in H.
    rewrite H at 1. reflexivity. }
  pose proof (checkTap_oldFingerPos dA []) as HoT.
  destruct (checkTap (dA, [])) as [dT taps]. cbn [fst snd] in *.
  (* optimizeQueue and checkQueue *)
  unfold optimizeQueue. cbn [queue set_queue]. rewrite HqT.
  destruct (optimize_times m (queue dA) Hm H1A HmA) as (Hopt & H1O & HmO).
  rewrite Hopt.
  destruct (queue_within_four _ _ H1O) as (a & b & c & e & Hq4). rewrite Hq4 in *.
  cbn [map].
  rewrite (checkQueue_spec cfgB _ taps (m * a) (m * b) (m * c) (m * e)) by reflexivity.
  rewrite (checkQueue_spec cfgA _ taps a b c e) by reflexivity.
  cbn [fst snd queue set_queue oldFingerPos].
  assert (He : - SCHAR_MAX <= e <= SCHAR_MAX /\ - SCHAR_MAX <= m * e <= SCHAR_MAX).
  { destruct H1O as [_ F1]. destruct HmO as [_ Fm].
    rewrite List.Forall_forall in F1, Fm.
    specialize (F1 e ltac:(cbn; auto)). specialize (Fm e ltac:(cbn; auto)).
    cbv beta in *. lia. }
  split; [|split; [|split]].
  - f_equal.
    + cbn [map]. rewrite Z.mul_0_r. reflexivity.
    + rewrite map_app, Htaps, Hfun, slide_calls_times by (try assumption; lia). reflexivity.
  - apply (queue_within_shift 1 a b c e H1O).
  - apply (queue_within_shift m a b c e HmO).
  - rewrite HoT, HoA. exact Hnew.
Qed.


Lemma checkQueue_calls cfg d (log : list Call) :
  checkQueue cfg (d, log)
  = (fst (checkQueue cfg (d, [])), log ++ snd (checkQueue cfg (d, []))).
Proof.
  unfold checkQueue. cbn [fst snd]. f_equal.
  set (change := at_index (queue d) (queueSize - 1)).
  destruct (function cfg); cbn [reportKey reportScroll Recorder];
    destruct (change >? 0), (change <? 0); cbn [app];
    rewrite ?app_nil_r, <- ?app_assoc; reflexivity.
Qed.

(** The calls of a tick are appended to the record. *)
Lemma onTimer_calls cfg touchSensor d (log : list Call) :
  onTimer cfg touchSensor (d, log)
  = (fst (onTimer cfg touchSensor (d, [])), log ++ snd (onTimer cfg touchSensor (d, []))).
Proof.
  unfold onTimer.
  set (d1 := checkSensor cfg touchSensor _).
  destruct (checkTap_calls d1 log) as (-> & _).
  destruct (checkTap (d1, [])) as [d2 taps]. cbn [fst snd].
  rewrite (checkQueue_calls cfg _ (log ++ taps)), (checkQueue_calls cfg _ taps).
  cbn [fst snd]. rewrite app_assoc. reflexivity.
Qed.

(** The decoder does with any reporter what it does with the recorder:
    the record of a tick is the sequence of calls the tick makes, and the
    decoder's own data do not depend on the reporter. *)
Lemma checkTap_replay {R : Type} `{KeyReporter R} d (r : R) :
  checkTap (d, r)
  = (fst (checkTap (d, ([] : list Call))), replay (snd (checkTap (d, ([] : list Call)))) r).
Proof.
  destruct d. unfold checkTap. simpl.
  destruct isTouching0, releaseProcessed0, hasMoved0, waitingForDoubleTap0;
    split_comparisons; reflexivity.
Qed.

Lemma checkQueue_replay {R : Type} `{KeyReporter R} cfg d (r : R) :
  checkQueue cfg (d, r)
  = (fst (checkQueue cfg (d, ([] : list Call))),
     replay (snd (checkQueue cfg (d, ([] : list Call)))) r).
Proof.
  unfold checkQueue. cbn [fst snd]. f_equal.
  set (change := at_index (queue d) (queueSize - 1)).
  destruct (function cfg); cbn [reportKey reportScroll Recorder];
    destruct (change >? 0), (change <? 0); reflexivity.
Qed.

Lemma replay_app {R : Type} `{KeyReporter R} calls calls' (r : R) :
  replay (calls ++ calls') r = replay calls' (replay calls r).
Proof. unfold replay. apply fold_left_app. Qed.

Lemma onTimer_replay {R : Type} `{KeyReporter R} cfg touchSensor d (r : R) :
  onTimer cfg touchSensor (d, r)
  = (fst (onTimer cfg touchSensor (d, ([] : list Call))),
     replay (snd (onTimer cfg touchSensor (d, ([] : list Call)))) r).
Proof.
  unfold onTimer.
  set (d1 := checkSensor cfg touchSensor _).
  rewrite (checkTap_replay d1 r).
  destruct (checkTap (d1, ([] : list Call))) as [d2 taps]. cbn [fst snd].
  rewrite (checkQueue_replay cfg _ (replay taps r)).
  rewrite (checkQueue_calls cfg _ taps). cbn [fst snd].
  rewrite replay_app. reflexivity.
Qed.

(** A run under two configurations whose factors are in the ratio [m]. *)
Lemma run_times cfgA cfgB m N ticks :
  m <> 0 ->
  function cfgB = function cfgA ->
  factor cfgB = m * factor cfgA ->
  1 <= scale cfgA -> (N - 1) * scale cfgA <= SCHAR_MAX ->
  1 <= scale cfgB -> (N - 1) * scale cfgB <= SCHAR_MAX ->
  Forall (fun touchSensor : TouchSensor => Z.of_nat (length touchSensor) <= N) ticks ->
  forall d (log : list Call),
    queue_within 1 (queue d) -> queue_within m (queue d) ->
    position_below N (oldFingerPos d) ->
    run cfgB ticks (set_queue (map (Z.mul m) (queue d)) d, map (times m) log)
    = (set_queue (map (Z.mul m) (queue (fst (run cfgA ticks (d, log)))))
         (fst (run cfgA ticks (d, log))),
       map (times m) (snd (run cfgA ticks (d, log)))).
Proof.
  intros Hm Hfun Hfac HsA HfitA HsB HfitB Hticks.
  induction Hticks as [|touchSensor ticks Hlen Hticks IH]; intros d log H1 Hmq Hold.
  - reflexivity.
  - unfold run in *. cbn [fold_left].
    destruct (onTimer_times cfgA cfgB m N touchSensor d Hm Hfun Hfac HsA HfitA HsB HfitB
                Hlen H1 Hmq Hold) as (Hstep & H1' & Hm' & Hold').
    rewrite (onTimer_calls cfgB touchSensor _ (map (times m) log)), Hstep.
    rewrite (onTimer_calls cfgA touchSensor d log). cbn [fst snd].
    rewrite <- map_app. apply IH; assumption.
Qed.

Lemma magnified_1 c : magnified 1 c = c.
Proof.
  destruct c as [key count | steps]; unfold magnified.
  - destruct (is_slide_key key); [|reflexivity]. f_equal. lia.
  - f_equal. lia.
Qed.

Lemma empty_queue_within m : queue_within m empty_queue.
Proof.
  split; [reflexivity|]. unfold empty_queue, SCHAR_MAX.
  repeat (constructor; [lia|]). constructor.
Qed.

Lemma run_times_initial cfgA cfgB m N ticks :
  m <> 0 ->
  function cfgB = function cfgA ->
  factor cfgB = m * factor cfgA ->
  1 <= scale cfgA -> (N - 1) * scale cfgA <= SCHAR_MAX ->
  1 <= scale cfgB -> (N - 1) * scale cfgB <= SCHAR_MAX ->
  Forall (fun touchSensor : TouchSensor => Z.of_nat (length touchSensor) <= N) ticks ->
  snd (run cfgB ticks (initial empty_queue, []))
  = map (times m) (snd (run cfgA ticks (initial empty_queue, []))).
Proof.
  intros Hm Hfun Hfac HsA HfitA HsB HfitB Hticks.
  pose proof (run_times cfgA cfgB m N ticks Hm Hfun Hfac HsA HfitA HsB HfitB Hticks
                (initial empty_queue) [] (empty_queue_within 1) (empty_queue_within m)
                (or_introl eq_refl)) as H.
  replace (set_queue (map (Z.mul m) (queue (initial empty_queue))) (initial empty_queue))
    with (initial empty_queue) in H
    by (unfold initial, set_queue, empty_queue; cbn; rewrite Z.mul_0_r; reflexivity).
  cbn [map] in H. rewrite H. reflexivity.
Qed.

(** C6, as amended.  With channels below [N], a scale of at least 1 and
    [(N - 1) * scale] within a [signed char]: the value stored in slot 0
    for a raw delta is the delta, negated if flip is set, times scale;
    [checkQueue] consults neither flip nor scale; and therefore, for
    every sequence of ticks and whatever the function, the run with flip
    set makes the calls of the run with flip clear in the opposite
    direction, and the run at scale makes the calls of the run at scale 1
    with their magnitudes multiplied by scale. *)
Theorem flip_and_scale_at_insertion (cfg : DeviceConfiguration) (N : Z)
    (ticks : list TouchSensor) :
  1 <= scale cfg ->
  (N - 1) * scale cfg <= SCHAR_MAX ->
  Forall (fun touchSensor : TouchSensor => Z.of_nat (length touchSensor) <= N) ticks ->
  (forall (d : GestureDecoder) (touchSensor : TouchSensor),
      length (queue d) = queueSize ->
      0 <= oldFingerPos d < N ->
      0 <= newFingerPosOf touchSensor < N ->
      newFingerPosOf touchSensor <> oldFingerPos d ->
      let change := oldFingerPos d - newFingerPosOf touchSensor in
      at_index (queue (checkSensor cfg touchSensor d)) 0
      = (if flip cfg then - change else change) * scale cfg)
  /\ (forall (cfg' : DeviceConfiguration) (st : GestureDecoder * list Call),
        function cfg' = function cfg -> checkQueue cfg' st = checkQueue cfg st)
  /\ snd (run (with_flip true cfg) ticks (initial empty_queue, []))
     = map mirror (snd (run (with_flip false cfg) ticks (initial empty_queue, [])))
  /\ snd (run cfg ticks (initial empty_queue, []))
     = map (magnified (scale cfg))
         (snd (run (with_scale 1 cfg) ticks (initial empty_queue, []))).
Proof.
  intros Hscale Hfit Hticks.
  assert (HN : (N - 1) * 1 <= SCHAR_MAX) by (unfold SCHAR_MAX in *; nia).
  split; [|split; [|split]].
  - intros d touchSensor Hlen Hold Hnew Hne. cbv zeta.
    rewrite (checkSensor_insert cfg touchSensor d N Hscale Hfit)
      by (unfold position_below; lia).
    cbv zeta.
    replace (negb (newFingerPosOf touchSensor =? oldFingerPos d)) with true
      by (symmetry; apply negb_true_iff, Z.eqb_neq; exact Hne).
    replace (newFingerPosOf touchSensor >=? 0) with true by (symmetry; apply Z.geb_le; lia).
    replace (oldFingerPos d >=? 0) with true by (symmetry; apply Z.geb_le; lia).
    cbn [andb]. destruct (queue d) as [|q0 rest]; [discriminate Hlen|].
    cbn. unfold factor. destruct (flip cfg); lia.
  - intros cfg' st Hfun. unfold checkQueue. rewrite Hfun. reflexivity.
  - rewrite (run_times_initial (with_flip false cfg) (with_flip true cfg) (-1) N ticks);
      try assumption; try reflexivity; try lia.
    + apply map_ext. intros c. unfold times. cbn [Z.ltb Z.compare Z.opp].
      rewrite magnified_1. reflexivity.
    + unfold factor. cbn [flip scale with_flip]. lia.
  - rewrite (run_times_initial (with_scale 1 cfg) cfg (scale cfg) N ticks);
      try assumption; try reflexivity; try lia.
    + apply map_ext. intros c. unfold times.
      destruct (Z.ltb_spec (scale cfg) 0); [lia | reflexivity].
    + unfold factor. cbn [flip scale with_scale]. destruct (flip cfg); lia.
Qed.


Lemma flip_and_scale_at_insertion_witness :
  let cfg := {| flip := false; scale := 2; function := DEVICE_FUNCTION_BRIGHTNESS |} in
  1 <= scale cfg
  /\ (3 - 1) * scale cfg <= SCHAR_MAX
  /\ Forall (fun touchSensor : TouchSensor => Z.of_nat (length touchSensor) <= 3) slide_1_to_0
  /\ snd (run (with_flip true cfg) slide_1_to_0 (initial empty_queue, []))
     = map mirror [ReportKey KEY_BRIGHTNESS_UP 2]
  /\ snd (run cfg slide_1_to_0 (initial empty_queue, []))
     = map (magnified 2) [ReportKey KEY_BRIGHTNESS_UP 1].
Proof.
  cbv zeta.
  set (cfg := {| flip := false; scale := 2; function := DEVICE_FUNCTION_BRIGHTNESS |}).
  assert (H1 : 1 <= scale cfg) by (cbn; lia).
  assert (H2 : (3 - 1) * scale cfg <= SCHAR_MAX) by (vm_compute; discriminate).
  assert (H3 : Forall (fun touchSensor : TouchSensor => Z.of_nat (length touchSensor) <= 3)
                 slide_1_to_0)
    by (repeat constructor; vm_compute; discriminate).
  split; [exact H1|]. split; [exact H2|]. split; [exact H3|].
  destruct (flip_and_scale_at_insertion cfg 3 slide_1_to_0 H1 H2 H3) as (_ & _ & Hflip & Hscale).
  split; [rewrite Hflip | rewrite Hscale]; reflexivity.
Defined.

(** C6 as stated fails where the product leaves the [signed char] range.
    At scale 200 the raw delta 1 is stored as -56, not as 200, and the
    slide is reported as 56 steps down where scale 1 reports 1 step up;
    at scale 128 the slide is reported as 128 steps down whether flip is
    set or not. *)
Lemma large_scale_wraps_the_stored_delta :
  let cfg := {| flip := false; scale := 200; function := DEVICE_FUNCTION_VOLUME |} in
  let cfg128 := {| flip := false; scale := 128; function := DEVICE_FUNCTION_VOLUME |} in
  let d := set_oldFingerPos 1 (initial empty_queue) in
  oldFingerPos d - newFingerPosOf finger_on_0 = 1
  /\ at_index (queue (checkSensor cfg finger_on_0 d)) 0 = -56
  /\ at_index (queue (checkSensor cfg finger_on_0 d)) 0
     <> (oldFingerPos d - newFingerPosOf finger_on_0) * scale cfg
  /\ snd (run (with_scale 1 cfg) slide_1_to_0 (initial empty_queue, []))
     = [ReportKey KEY_VOLUME_UP 1]
  /\ snd (run cfg slide_1_to_0 (initial empty_queue, [])) = [ReportKey KEY_VOLUME_DOWN 56]
  /\ snd (run (with_flip false cfg128) slide_1_to_0 (initial empty_queue, []))
     = [ReportKey KEY_VOLUME_DOWN 128]
  /\ snd (run (with_flip true cfg128) slide_1_to_0 (initial empty_queue, []))
     = [ReportKey KEY_VOLUME_DOWN 128].
Proof. vm_compute. repeat split; discriminate. Qed.

End SlideFacts.
